(** * requests: derived Builder setters and the minitrue helper

    A shallow embedding of [builder_extras.go] and
    [internal/minitrue/minitrue.go].  Pointers to a [Builder] are locations
    of an explicit heap; every method is a computation in a state-and-panic
    monad over that heap, so that "returns the receiver" and "mutates in
    place" are statements about locations, not about values. *)

From stdpp Require Import base decidable option numbers gmap strings list.
From Stdlib Require Import ZArith Lia Ascii String.

Local Open Scope string_scope.
Local Open Scope Z_scope.

(* ===================================================================== *)
(** ** Package minitrue *)
(* ===================================================================== *)

Module minitrue.

(** Go's [comparable] constraint: the zero value [*new(T)] and the
    language's [==] on [T].  [==] is not identity of values in every type:
    on floating-point numbers it is the IEEE comparison.  In every
    comparable type the zero value compares equal to itself. *)
Class Comparable (T : Type) := {
  zero : T;
  equal : T -> T -> bool;
  zero_equal_zero : equal zero zero = true;
}.

(** The comparable types whose [==] is identity of values: integers,
    strings, booleans, pointers. *)
Class Identity (T : Type) `{Comparable T} : Prop :=
  equal_eq : ∀ a b : T, equal a b = true ↔ a = b.

(** [func Cond[T any](val bool, a, b T) T] *)
Definition Cond {T : Type} (val : bool) (a b : T) : T :=
  if val then a else b.

(** [func First[T comparable](a, b T) T]; [a != *new(T)] is the negation
    of [a == *new(T)]. *)
Definition First {T : Type} `{Comparable T} (a b : T) : T :=
  Cond (negb (equal a zero)) a b.

#[global, refine] Instance int_comparable : Comparable Z :=
  {| zero := 0%Z; equal := Z.eqb |}.
Proof. reflexivity. Defined.

#[global, refine] Instance string_comparable : Comparable string :=
  {| zero := ""; equal := String.eqb |}.
Proof. reflexivity. Defined.

#[global, refine] Instance bool_comparable : Comparable bool :=
  {| zero := false; equal := Bool.eqb |}.
Proof. reflexivity. Defined.

#[global] Instance int_identity : Identity Z.
Proof. intros a b. apply Z.eqb_eq. Qed.

#[global] Instance string_identity : Identity string.
Proof. intros a b. apply String.eqb_eq. Qed.

#[global] Instance bool_identity : Identity bool.
Proof. intros a b. apply Bool.eqb_true_iff. Qed.

(** [float64] by its IEEE 754 bit pattern, as [math.Float64bits] gives it:
    the sign in bit 63, the exponent in bits 62 to 52, the fraction in
    bits 51 to 0. *)
Record float64 := Float64frombits { Float64bits : Z }.

Definition float64_word (x : float64) : Z :=
  Z.land (Float64bits x) (Z.ones 64).

Definition float64_exponent (x : float64) : Z :=
  Z.land (Z.shiftr (float64_word x) 52) (Z.ones 11).

Definition float64_fraction (x : float64) : Z :=
  Z.land (float64_word x) (Z.ones 52).

(** Not a number: all exponent bits set and a fraction that is not zero. *)
Definition IsNaN (x : float64) : bool :=
  (float64_exponent x =? 2047) && negb (float64_fraction x =? 0).

(** Plus or minus zero: every bit but the sign is clear. *)
Definition float64_is_zero (x : float64) : bool :=
  Z.land (float64_word x) (Z.ones 63) =? 0.

(** [x == y] on [float64]: false as soon as one side is not a number, true
    for the two zeros, and otherwise equality of the bit patterns. *)
Definition float64_equal (x y : float64) : bool :=
  negb (IsNaN x) && negb (IsNaN y)
  && ((float64_word x =? float64_word y)
      || float64_is_zero x && float64_is_zero y).

#[global, refine] Instance float64_comparable : Comparable float64 :=
  {| zero := Float64frombits 0; equal := float64_equal |}.
Proof. reflexivity. Defined.

(** Some values of [float64]. *)
Definition negative_zero : float64 := Float64frombits 0x8000000000000000.
Definition NaN : float64 := Float64frombits 0x7FF8000000000001.
Definition five : float64 := Float64frombits 0x4014000000000000.

End minitrue.

(* ===================================================================== *)
(** ** The parts of Go's standard library the file calls *)
(* ===================================================================== *)

(** Locations: the addresses behind [*Builder], [map] values and the other
    reference-typed arguments. *)
Definition loc := positive.

(** Go's [error]: [None] is [nil]. *)
Definition error := option string.

(** [url.Values] and [http.Header] are both [map[string][]string]. *)
Abbreviation Values := (gmap string (list string)).

(** [net/http]: the method constants and the response a handler is given.
    [Body] is the part of the body stream that has not been read yet. *)
Module http.
Definition MethodHead : string := "HEAD".
Definition MethodPut : string := "PUT".
Definition MethodPatch : string := "PATCH".
Definition MethodDelete : string := "DELETE".

Record Response := {
  StatusCode : Z;
  Header : Values;
  Body : string;
}.
End http.

(** [strconv]: decimal rendering of an [int]. *)
Module strconv.

Definition digit (d : Z) : ascii := ascii_of_nat (48 + Z.to_nat d).

(** The digit loop of [formatBits] in base 10: the least significant
    digit is written first, at the right end of the buffer.  [n] bounds
    the buffer; a 64-bit magnitude has at most 20 digits. *)
Fixpoint formatBits (n : nat) (u : Z) (a : string) : string :=
  match n with
  | O => a
  | S n' =>
      if u <? 10 then String (digit u) a
      else formatBits n' (u / 10) (String (digit (u mod 10)) a)
  end.

(** [func Itoa(i int) string], that is [FormatInt(int64(i), 10)]. *)
Definition Itoa (i : Z) : string :=
  if i <? 0 then String "-"%char (formatBits 20 (- i) "")
  else formatBits 20 i "".

(** The range of Go's [int] on a 64-bit platform. *)
Definition is_int (i : Z) : Prop := - 2 ^ 63 <= i < 2 ^ 63.

(** Reading a decimal numeral back, used to state what [Itoa] returns. *)
Definition digit_val (c : ascii) : option Z :=
  let n := Z.of_nat (nat_of_ascii c) in
  if (48 <=? n) && (n <=? 57) then Some (n - 48) else None.

Fixpoint parse_digits (s : string) (acc : Z) : option Z :=
  match s with
  | EmptyString => Some acc
  | String c s' =>
      match digit_val c with
      | Some d => parse_digits s' (10 * acc + d)
      | None => None
      end
  end.

Definition parse_decimal (s : string) : option Z :=
  match s with
  | EmptyString => None
  | String c s' =>
      if Ascii.eqb c "-"
      then match s' with
           | EmptyString => None
           | _ => Z.opp <$> parse_digits s' 0
           end
      else parse_digits s 0
  end.

End strconv.

(** [encoding/base64]: [StdEncoding.EncodeToString]. *)
Module base64.

Definition encodeStd : string :=
  "ABCDEFGHIJKLMNOPQRSTUVWXYZabcdefghijklmnopqrstuvwxyz0123456789+/".

Definition StdPadding : ascii := "="%char.

Definition byte (c : ascii) : Z := Z.of_nat (nat_of_ascii c).

(** [enc.encode[i]] *)
Definition encode (i : Z) : ascii :=
  match String.get (Z.to_nat i) encodeStd with
  | Some c => c
  | None => StdPadding
  end.

(** [func (enc *Encoding) Encode(dst, src []byte)]: whole groups of three
    bytes give four characters; a remainder of one or two bytes gives two
    or three characters and is padded to four. *)
Fixpoint Encode (src : list ascii) : list ascii :=
  match src with
  | [] => []
  | [s0] =>
      let val := Z.shiftl (byte s0) 16 in
      [ encode (Z.land (Z.shiftr val 18) 63);
        encode (Z.land (Z.shiftr val 12) 63);
        StdPadding; StdPadding ]
  | [s0; s1] =>
      let val := Z.lor (Z.shiftl (byte s0) 16) (Z.shiftl (byte s1) 8) in
      [ encode (Z.land (Z.shiftr val 18) 63);
        encode (Z.land (Z.shiftr val 12) 63);
        encode (Z.land (Z.shiftr val 6) 63);
        StdPadding ]
  | s0 :: s1 :: s2 :: rest =>
      let val := Z.lor (Z.lor (Z.shiftl (byte s0) 16)
                              (Z.shiftl (byte s1) 8)) (byte s2) in
      encode (Z.land (Z.shiftr val 18) 63)
      :: encode (Z.land (Z.shiftr val 12) 63)
      :: encode (Z.land (Z.shiftr val 6) 63)
      :: encode (Z.land val 63)
      :: Encode rest
  end.

Definition EncodeToString (src : string) : string :=
  string_of_list_ascii (Encode (list_ascii_of_string src)).

(** [func (enc *Encoding) EncodedLen(n int) int] with padding. *)
Definition EncodedLen (n : nat) : nat := ((n + 2) / 3 * 4)%nat.

(** Reading an encoding back (RFC 4648, section 4), used to state what
    [EncodeToString] returns: the position of a character in the
    alphabet, four characters to a 24-bit group, and the padded forms of
    the last group. *)
Fixpoint index_of (c : ascii) (s : string) (i : Z) : option Z :=
  match s with
  | EmptyString => None
  | String c' s' => if Ascii.eqb c c' then Some i else index_of c s' (i + 1)
  end.

Definition decode (c : ascii) : option Z := index_of c encodeStd 0.

Definition group (d0 d1 d2 d3 : Z) : Z :=
  Z.lor (Z.lor (Z.lor (Z.shiftl d0 18) (Z.shiftl d1 12)) (Z.shiftl d2 6)) d3.

Definition octet (val : Z) (k : Z) : ascii :=
  ascii_of_nat (Z.to_nat (Z.land (Z.shiftr val k) 255)).

Fixpoint Decode (src : list ascii) : option (list ascii) :=
  match src with
  | [] => Some []
  | c0 :: c1 :: c2 :: c3 :: rest =>
      match decode c0, decode c1 with
      | Some d0, Some d1 =>
          match decode c2, decode c3 with
          | Some d2, Some d3 =>
              let val := group d0 d1 d2 d3 in
              match Decode rest with
              | Some out =>
                  Some (octet val 16 :: octet val 8 :: octet val 0 :: out)
              | None => None
              end
          | Some d2, None =>
              let val := group d0 d1 d2 0 in
              if Ascii.eqb c3 StdPadding && bool_decide (rest = [])
              then Some [octet val 16; octet val 8] else None
          | None, _ =>
              let val := group d0 d1 0 0 in
              if Ascii.eqb c2 StdPadding && Ascii.eqb c3 StdPadding
                 && bool_decide (rest = [])
              then Some [octet val 16] else None
          end
      | _, _ => None
      end
  | _ => None
  end.

Definition DecodeString (s : string) : option string :=
  string_of_list_ascii <$> Decode (list_ascii_of_string s).

End base64.

(* ===================================================================== *)
(** ** Package requests: data model *)
(* ===================================================================== *)

(** [interface{}] values, as far as the setters pass them around. *)
#[local] Unset Elimination Schemes.
Inductive GoValue :=
| VNil
| VBool (b : bool)
| VInt (i : Z)
| VString (s : string)
| VPtr (l : loc)
| VSlice (vs : list GoValue)
| VMap (kvs : list (string * GoValue)).

#[local] Set Elimination Schemes.

(** Modelled from the spec: the [BodyGetter] type and its constructors
    (package functions [BodyReader], [BodyWriter], [BodyBytes], [BodyJSON],
    [BodyForm], [BodyFile]), which are declared outside [builder_extras.go].
    The spec lists the body producer as a closed set of variants: "fixed
    byte buffer, arbitrary readable stream, write-callback stream,
    JSON-encoded value, URL-encoded form, file-backed stream". *)
Inductive BodyGetter :=
| BodyReader (r : loc)
| BodyWriter (f : string -> string * error)
| BodyBytes (b : string)
| BodyJSON (v : GoValue)
| BodyForm (data : Values)
| BodyFile (name : string).

(** Modelled from the spec: the response validators built by the package
    functions [CheckStatus], [CheckContentType] and [CheckPeek], which are
    declared outside [builder_extras.go]: "Status validator", "Content-Type
    validator" and "Peek validator". *)
Inductive ResponseValidator :=
| CheckStatus (acceptStatuses : list Z)
| CheckContentType (cts : list string)
| CheckPeek (n : Z) (f : string -> error).

(** Modelled from the spec: the response handlers built by the package
    functions [ToJSON], [ToString], [ToBytesBuffer], [ToWriter], [ToFile],
    [ToHeaders], [ChainHandlers] and the handler [consumeBody], which are
    declared outside [builder_extras.go]. *)
#[local] Unset Elimination Schemes.
Inductive ResponseHandler :=
| ToJSON (v : GoValue)
| ToString (sp : loc)
| ToBytesBuffer (buf : loc)
| ToWriter (w : loc)
| ToFile (name : string)
| ToHeaders (h : loc)
| consumeBody
| ChainHandlers (handlers : list ResponseHandler).

#[local] Set Elimination Schemes.

(** Modelled from the spec: the [Builder] struct, declared outside
    [builder_extras.go].  The fields are those of the spec's Request
    Descriptor: method, host, path, ordered query parameters, headers keyed
    by case-insensitive name, at most one body producer, the validators in
    registration order and the handlers in registration order. *)
Record Builder := mkBuilder {
  method : string;
  host : string;
  path : string;
  params : list (string * string);
  headers : Values;
  body : option BodyGetter;
  validators : list ResponseValidator;
  handlers : list ResponseHandler;
}.

(** [Builder{}] *)
Definition zero_Builder : Builder :=
  {| method := ""; host := ""; path := ""; params := []; headers := ∅;
     body := None; validators := []; handlers := [] |}.

(** *** The heap and the monad of Go computations *)

Abbreviation Heap := (gmap loc Builder).

(** A computation reads and writes the heap of descriptors and either
    returns a value with the new heap or panics ([None]), as a method does
    on a [nil] receiver. *)
Definition Go (A : Type) : Type := Heap -> option (A * Heap).

#[global] Instance Go_ret : MRet Go := λ A (a : A) h, Some (a, h).

#[global] Instance Go_bind : MBind Go := λ A B (f : A -> Go B) (m : Go A) h,
  match m h with
  | Some (a, h') => f a h'
  | None => None
  end.

(** [&Builder{}]: a fresh location holding the zero descriptor. *)
Definition new_Builder : Go loc := λ h,
  let rb := fresh (dom h) in Some (rb, <[rb := zero_Builder]> h).

(** [rb.field = ...; return rb]: write through the receiver and return
    the receiver itself. *)
Definition update (f : Builder -> Builder) (rb : loc) : Go loc := λ h,
  match h !! rb with
  | Some b => Some (rb, <[rb := f b]> h)
  | None => None
  end.

(** [type Config = func(rb *Builder)] *)
Module requests.
Definition Config : Type := loc -> Go unit.
End requests.

(** *** Field mutations *)

Definition set_method (m : string) (b : Builder) : Builder :=
  {| method := m; host := host b; path := path b; params := params b;
     headers := headers b; body := body b; validators := validators b;
     handlers := handlers b |}.

Definition set_host (s : string) (b : Builder) : Builder :=
  {| method := method b; host := s; path := path b; params := params b;
     headers := headers b; body := body b; validators := validators b;
     handlers := handlers b |}.

Definition set_path (s : string) (b : Builder) : Builder :=
  {| method := method b; host := host b; path := s; params := params b;
     headers := headers b; body := body b; validators := validators b;
     handlers := handlers b |}.

Definition add_param (key value : string) (b : Builder) : Builder :=
  {| method := method b; host := host b; path := path b;
     params := params b ++ [(key, value)];
     headers := headers b; body := body b; validators := validators b;
     handlers := handlers b |}.

(** Header names are compared without regard to case. *)
Definition lower_ascii (c : ascii) : ascii :=
  let n := nat_of_ascii c in
  if (65 <=? n)%nat && (n <=? 90)%nat then ascii_of_nat (n + 32) else c.

Fixpoint lower (s : string) : string :=
  match s with
  | EmptyString => EmptyString
  | String c s' => String (lower_ascii c) (lower s')
  end.

(** The "recognized single-value headers (Content-Type, Authorization)". *)
Definition single_value (name : string) : bool :=
  bool_decide (lower name = "content-type")
  || bool_decide (lower name = "authorization").

(** The values in effect for a header name. *)
Definition header_values (name : string) (hs : Values) : list string :=
  default [] (hs !! lower name).

(** Modelled from the spec: the effect of the generic header setter on the
    header multi-map: "later calls for the same case-insensitive name
    append, except for recognized single-value headers (Content-Type,
    Authorization) which are conventionally overwritten". *)
Definition put_header (name value : string) (hs : Values) : Values :=
  if single_value name then <[lower name := [value]]> hs
  else <[lower name := (header_values name hs ++ [value])%list]> hs.

Definition set_header (name value : string) (b : Builder) : Builder :=
  {| method := method b; host := host b; path := path b; params := params b;
     headers := put_header name value (headers b);
     body := body b; validators := validators b; handlers := handlers b |}.

Definition set_body (src : BodyGetter) (b : Builder) : Builder :=
  {| method := method b; host := host b; path := path b; params := params b;
     headers := headers b; body := Some src; validators := validators b;
     handlers := handlers b |}.

Definition add_validator (v : ResponseValidator) (b : Builder) : Builder :=
  {| method := method b; host := host b; path := path b; params := params b;
     headers := headers b; body := body b;
     validators := validators b ++ [v]; handlers := handlers b |}.

Definition add_handler (hd : ResponseHandler) (b : Builder) : Builder :=
  {| method := method b; host := host b; path := path b; params := params b;
     headers := headers b; body := body b; validators := validators b;
     handlers := handlers b ++ [hd] |}.

(** *** Running a handler *)

(** The maps that handlers write into, by location. *)
Abbreviation Maps := (gmap loc Values).

(** [io.Copy(io.Discard, res.Body)]: nothing of the body is left unread. *)
Definition drain (res : http.Response) : http.Response :=
  {| http.StatusCode := http.StatusCode res;
     http.Header := http.Header res;
     http.Body := "" |}.

Section Handlers.

(** The decoders (JSON, string and buffer capture, file writing) are
    external collaborators of the composition model. *)
Variable decode :
  ResponseHandler -> http.Response -> Maps ->
  option (error * (http.Response * Maps)).

(** Modelled from the spec: what the handlers of the header-capture
    composition do when they run, which is code outside
    [builder_extras.go]: "the outer stage copies response headers into a
    caller-provided mapping and the inner stage unconditionally drains
    (discards) the body"; a chain runs its stages in order and stops at
    the first failure.  [None] is a panic (writing into a map that was
    never made). *)
Fixpoint run_handler (hd : ResponseHandler) (res : http.Response) (m : Maps)
  : option (error * (http.Response * Maps)) :=
  match hd with
  | ToHeaders h =>
      match m !! h with
      | Some old => Some (None, (res, <[h := http.Header res ∪ old]> m))
      | None => None
      end
  | consumeBody => Some (None, (drain res, m))
  | ChainHandlers stages =>
      (fix chain (stages : list ResponseHandler) res m :=
         match stages with
         | [] => Some (None, (res, m))
         | stage :: rest =>
             match run_handler stage res m with
             | Some (None, (res', m')) => chain rest res' m'
             | failed => failed
             end
         end) stages res m
  | other => decode other res m
  end.

End Handlers.

(* ===================================================================== *)
(** ** Package requests: the Builder methods *)
(* ===================================================================== *)

(** [fmt.Sprintf], taken as given. *)
Module fmt.
Class Formatter := { Sprintf : string -> list GoValue -> string }.

(** A format without verbs and without operands is returned as it is;
    this formatter is for running examples on such formats. *)
Definition verbatim : Formatter := {| Sprintf format _ := format |}.
End fmt.

Module Builder.

(** The primitive setters that [builder_extras.go] is layered over; they
    are declared in another file of the package.  The receiver comes
    first and the returned location is the method's [*Builder] result. *)
Class Primitives := {
  Method : loc -> string -> Go loc;
  Host : loc -> string -> Go loc;
  Path : loc -> string -> Go loc;
  Param : loc -> string -> string -> Go loc;
  Header : loc -> string -> string -> Go loc;
  Body : loc -> BodyGetter -> Go loc;
  AddValidator : loc -> ResponseValidator -> Go loc;
  Handle : loc -> ResponseHandler -> Go loc;
  Config : loc -> list requests.Config -> Go loc;
}.

(** Each configuration function is called on the same receiver, in
    order. *)
Fixpoint apply_configs (cfgs : list requests.Config) (rb : loc) : Go unit :=
  match cfgs with
  | [] => mret ()
  | cfg :: rest => _ ← cfg rb; apply_configs rest rb
  end.

(** Modelled from the spec: the primitive setters [Method], [Host],
    [Path], [Param], [Header], [Body], [AddValidator], [Handle] and
    [Config], whose bodies are not in [builder_extras.go].  Each one
    writes one field of the receiver and returns the receiver: setting
    the method, host, path or body replaces the old value ("last writer
    wins"), [Param], [AddValidator] and [Handle] append ("appending never
    removes prior entries"), [Header] follows [put_header], and [Config]
    "applies a sequence of Configuration Functions in order, each
    receiving and mutating the same descriptor". *)
Definition core : Primitives := {|
  Method rb m := update (set_method m) rb;
  Host rb s := update (set_host s) rb;
  Path rb s := update (set_path s) rb;
  Param rb key value := update (add_param key value) rb;
  Header rb key value := update (set_header key value) rb;
  Body rb src := update (set_body src) rb;
  AddValidator rb v := update (add_validator v) rb;
  Handle rb hd := update (add_handler hd) rb;
  Config rb cfgs := _ ← apply_configs cfgs rb; mret rb;
|}.

Section Extras.

Context `{Primitives} `{fmt.Formatter}.

Definition Head (rb : loc) : Go loc :=
  Method rb http.MethodHead.

Definition Put (rb : loc) : Go loc :=
  Method rb http.MethodPut.

Definition Patch (rb : loc) : Go loc :=
  Method rb http.MethodPatch.

Definition Delete (rb : loc) : Go loc :=
  Method rb http.MethodDelete.

Definition Hostf (rb : loc) (format : string) (a : list GoValue) : Go loc :=
  Host rb (fmt.Sprintf format a).

Definition Pathf (rb : loc) (format : string) (a : list GoValue) : Go loc :=
  Path rb (fmt.Sprintf format a).

Definition ParamInt (rb : loc) (key : string) (value : Z) : Go loc :=
  Param rb key (strconv.Itoa value).

Definition Accept (rb : loc) (contentTypes : string) : Go loc :=
  Header rb "Accept" contentTypes.

Definition CacheControl (rb : loc) (directive : string) : Go loc :=
  Header rb "Cache-Control" directive.

Definition ContentType (rb : loc) (ct : string) : Go loc :=
  Header rb "Content-Type" ct.

Definition UserAgent (rb : loc) (s : string) : Go loc :=
  Header rb "User-Agent" s.

Definition BasicAuth (rb : loc) (username password : string) : Go loc :=
  let auth := username +:+ ":" +:+ password in
  let v := base64.EncodeToString auth in
  Header rb "Authorization" ("Basic " +:+ v).

Definition Bearer (rb : loc) (token : string) : Go loc :=
  Header rb "Authorization" ("Bearer " +:+ token).

Definition BodyReader (rb : loc) (r : loc) : Go loc :=
  Body rb (BodyReader r).

Definition BodyWriter (rb : loc) (f : string -> string * error) : Go loc :=
  Body rb (BodyWriter f).

Definition BodyBytes (rb : loc) (b : string) : Go loc :=
  Body rb (BodyBytes b).

Definition BodyJSON (rb : loc) (v : GoValue) : Go loc :=
  rb ← Body rb (BodyJSON v);
  ContentType rb "application/json".

Definition BodyForm (rb : loc) (data : Values) : Go loc :=
  rb ← Body rb (BodyForm data);
  ContentType rb "application/x-www-form-urlencoded".

Definition BodyFile (rb : loc) (name : string) : Go loc :=
  Body rb (BodyFile name).

Definition CheckStatus (rb : loc) (acceptStatuses : list Z) : Go loc :=
  AddValidator rb (CheckStatus acceptStatuses).

Definition CheckContentType (rb : loc) (cts : list string) : Go loc :=
  AddValidator rb (CheckContentType cts).

Definition CheckPeek (rb : loc) (n : Z) (f : string -> error) : Go loc :=
  AddValidator rb (CheckPeek n f).

Definition ToJSON (rb : loc) (v : GoValue) : Go loc :=
  Handle rb (ToJSON v).

Definition ToString (rb : loc) (sp : loc) : Go loc :=
  Handle rb (ToString sp).

Definition ToBytesBuffer (rb : loc) (buf : loc) : Go loc :=
  Handle rb (ToBytesBuffer buf).

Definition ToWriter (rb : loc) (w : loc) : Go loc :=
  Handle rb (ToWriter w).

Definition ToFile (rb : loc) (name : string) : Go loc :=
  Handle rb (ToFile name).

Definition ToHeaders (rb : loc) (h : loc) : Go loc :=
  rb ← Head rb;
  Handle rb (ChainHandlers [ToHeaders h; consumeBody]).

End Extras.

End Builder.

(** [func Configure(cfgs ...Config) *Builder] *)
Definition Configure `{Builder.Primitives} (cfgs : list requests.Config) : Go loc :=
  rb ← new_Builder;
  Builder.Config rb cfgs.

(* ===================================================================== *)
(** ** Chains of setter calls *)
(* ===================================================================== *)

(** One chained call: the method and its arguments. *)
Inductive Call :=
| CMethod (m : string)
| CHost (s : string)
| CPath (s : string)
| CParam (key value : string)
| CHeader (key value : string)
| CBody (src : BodyGetter)
| CAddValidator (v : ResponseValidator)
| CHandle (hd : ResponseHandler)
| CHead
| CPut
| CPatch
| CDelete
| CHostf (format : string) (a : list GoValue)
| CPathf (format : string) (a : list GoValue)
| CParamInt (key : string) (value : Z)
| CAccept (contentTypes : string)
| CCacheControl (directive : string)
| CContentType (ct : string)
| CUserAgent (s : string)
| CBasicAuth (username password : string)
| CBearer (token : string)
| CBodyReader (r : loc)
| CBodyWriter (f : string -> string * error)
| CBodyBytes (b : string)
| CBodyJSON (v : GoValue)
| CBodyForm (data : Values)
| CBodyFile (name : string)
| CCheckStatus (acceptStatuses : list Z)
| CCheckContentType (cts : list string)
| CCheckPeek (n : Z) (f : string -> error)
| CToJSON (v : GoValue)
| CToString (sp : loc)
| CToBytesBuffer (buf : loc)
| CToWriter (w : loc)
| CToFile (name : string)
| CToHeaders (h : loc).

Section Chains.

Context `{Builder.Primitives} `{fmt.Formatter}.

(** [rb.M(args)] *)
Definition invoke (c : Call) (rb : loc) : Go loc :=
  match c with
  | CMethod m => Builder.Method rb m
  | CHost s => Builder.Host rb s
  | CPath s => Builder.Path rb s
  | CParam key value => Builder.Param rb key value
  | CHeader key value => Builder.Header rb key value
  | CBody src => Builder.Body rb src
  | CAddValidator v => Builder.AddValidator rb v
  | CHandle hd => Builder.Handle rb hd
  | CHead => Builder.Head rb
  | CPut => Builder.Put rb
  | CPatch => Builder.Patch rb
  | CDelete => Builder.Delete rb
  | CHostf format a => Builder.Hostf rb format a
  | CPathf format a => Builder.Pathf rb format a
  | CParamInt key value => Builder.ParamInt rb key value
  | CAccept contentTypes => Builder.Accept rb contentTypes
  | CCacheControl directive => Builder.CacheControl rb directive
  | CContentType ct => Builder.ContentType rb ct
  | CUserAgent s => Builder.UserAgent rb s
  | CBasicAuth username password => Builder.BasicAuth rb username password
  | CBearer token => Builder.Bearer rb token
  | CBodyReader r => Builder.BodyReader rb r
  | CBodyWriter f => Builder.BodyWriter rb f
  | CBodyBytes b => Builder.BodyBytes rb b
  | CBodyJSON v => Builder.BodyJSON rb v
  | CBodyForm data => Builder.BodyForm rb data
  | CBodyFile name => Builder.BodyFile rb name
  | CCheckStatus acceptStatuses => Builder.CheckStatus rb acceptStatuses
  | CCheckContentType cts => Builder.CheckContentType rb cts
  | CCheckPeek n f => Builder.CheckPeek rb n f
  | CToJSON v => Builder.ToJSON rb v
  | CToString sp => Builder.ToString rb sp
  | CToBytesBuffer buf => Builder.ToBytesBuffer rb buf
  | CToWriter w => Builder.ToWriter rb w
  | CToFile name => Builder.ToFile rb name
  | CToHeaders h => Builder.ToHeaders rb h
  end.

(** [rb.M1(...).M2(...)...]: each call is made on the pointer the
    previous call returned. *)
Fixpoint chain (cs : list Call) (rb : loc) : Go loc :=
  match cs with
  | [] => mret rb
  | c :: rest => rb' ← invoke c rb; chain rest rb'
  end.

End Chains.

Section Documented.

Context `{fmt.Formatter}.

(** What each call is documented to change, written from the doc
    comments of the methods and the spec's description of the setters,
    field by field on the descriptor: every field a call is not
    documented to change is copied, and the header setters name the
    header they write and say whether they overwrite or append. *)
Definition documented (c : Call) (b : Builder) : Builder :=
  match c with
  | CMethod m =>
      {| method := m; host := host b; path := path b; params := params b;
         headers := headers b; body := body b; validators := validators b;
         handlers := handlers b |}
  | CHost s =>
      {| method := method b; host := s; path := path b; params := params b;
         headers := headers b; body := body b; validators := validators b;
         handlers := handlers b |}
  | CPath s =>
      {| method := method b; host := host b; path := s; params := params b;
         headers := headers b; body := body b; validators := validators b;
         handlers := handlers b |}
  | CParam key value =>
      {| method := method b; host := host b; path := path b;
         params := (params b ++ [(key, value)])%list; headers := headers b;
         body := body b; validators := validators b; handlers := handlers b |}
  | CHeader key value =>
      {| method := method b; host := host b; path := path b;
         params := params b;
         headers :=
           if single_value key
           then <[lower key := [value]]> (headers b)
           else <[lower key :=
                    (default [] (headers b !! lower key) ++ [value])%list]>
                  (headers b);
         body := body b; validators := validators b; handlers := handlers b |}
  | CBody src =>
      {| method := method b; host := host b; path := path b;
         params := params b; headers := headers b; body := Some src;
         validators := validators b; handlers := handlers b |}
  | CAddValidator v =>
      {| method := method b; host := host b; path := path b;
         params := params b; headers := headers b; body := body b;
         validators := (validators b ++ [v])%list; handlers := handlers b |}
  | CHandle hd =>
      {| method := method b; host := host b; path := path b;
         params := params b; headers := headers b; body := body b;
         validators := validators b; handlers := (handlers b ++ [hd])%list |}
  | CHead =>
      {| method := "HEAD"; host := host b; path := path b;
         params := params b; headers := headers b; body := body b;
         validators := validators b; handlers := handlers b |}
  | CPut =>
      {| method := "PUT"; host := host b; path := path b; params := params b;
         headers := headers b; body := body b; validators := validators b;
         handlers := handlers b |}
  | CPatch =>
      {| method := "PATCH"; host := host b; path := path b;
         params := params b; headers := headers b; body := body b;
         validators := validators b; handlers := handlers b |}
  | CDelete =>
      {| method := "DELETE"; host := host b; path := path b;
         params := params b; headers := headers b; body := body b;
         validators := validators b; handlers := handlers b |}
  | CHostf format a =>
      {| method := method b; host := fmt.Sprintf format a; path := path b;
         params := params b; headers := headers b; body := body b;
         validators := validators b; handlers := handlers b |}
  | CPathf format a =>
      {| method := method b; host := host b; path := fmt.Sprintf format a;
         params := params b; headers := headers b; body := body b;
         validators := validators b; handlers := handlers b |}
  | CParamInt key value =>
      {| method := method b; host := host b; path := path b;
         params := (params b ++ [(key, strconv.Itoa value)])%list;
         headers := headers b; body := body b; validators := validators b;
         handlers := handlers b |}
  | CAccept contentTypes =>
      {| method := method b; host := host b; path := path b;
         params := params b;
         headers := <["accept" := (default [] (headers b !! "accept") ++ [contentTypes])%list]>
                   (headers b);
         body := body b; validators := validators b; handlers := handlers b |}
  | CCacheControl directive =>
      {| method := method b; host := host b; path := path b;
         params := params b;
         headers := <["cache-control" := (default [] (headers b !! "cache-control") ++ [directive])%list]>
                   (headers b);
         body := body b; validators := validators b; handlers := handlers b |}
  | CContentType ct =>
      {| method := method b; host := host b; path := path b;
         params := params b;
         headers := <["content-type" := [ct]]> (headers b); body := body b;
         validators := validators b; handlers := handlers b |}
  | CUserAgent s =>
      {| method := method b; host := host b; path := path b;
         params := params b;
         headers := <["user-agent" := (default [] (headers b !! "user-agent") ++ [s])%list]>
                   (headers b);
         body := body b; validators := validators b; handlers := handlers b |}
  | CBasicAuth username password =>
      {| method := method b; host := host b; path := path b;
         params := params b;
         headers := <["authorization" :=
                     ["Basic " +:+ base64.EncodeToString
                                     (username +:+ ":" +:+ password)]]>
                   (headers b);
         body := body b; validators := validators b; handlers := handlers b |}
  | CBearer token =>
      {| method := method b; host := host b; path := path b;
         params := params b;
         headers := <["authorization" := ["Bearer " +:+ token]]> (headers b);
         body := body b; validators := validators b; handlers := handlers b |}
  | CBodyReader r =>
      {| method := method b; host := host b; path := path b;
         params := params b; headers := headers b;
         body := Some (BodyReader r); validators := validators b;
         handlers := handlers b |}
  | CBodyWriter f =>
      {| method := method b; host := host b; path := path b;
         params := params b; headers := headers b;
         body := Some (BodyWriter f); validators := validators b;
         handlers := handlers b |}
  | CBodyBytes bs =>
      {| method := method b; host := host b; path := path b;
         params := params b; headers := headers b;
         body := Some (BodyBytes bs); validators := validators b;
         handlers := handlers b |}
  | CBodyJSON v =>
      {| method := method b; host := host b; path := path b;
         params := params b;
         headers := <["content-type" := ["application/json"]]> (headers b);
         body := Some (BodyJSON v); validators := validators b;
         handlers := handlers b |}
  | CBodyForm data =>
      {| method := method b; host := host b; path := path b;
         params := params b;
         headers := <["content-type" := ["application/x-www-form-urlencoded"]]> (headers b);
         body := Some (BodyForm data); validators := validators b;
         handlers := handlers b |}
  | CBodyFile name =>
      {| method := method b; host := host b; path := path b;
         params := params b; headers := headers b;
         body := Some (BodyFile name); validators := validators b;
         handlers := handlers b |}
  | CCheckStatus acceptStatuses =>
      {| method := method b; host := host b; path := path b;
         params := params b; headers := headers b; body := body b;
         validators := (validators b ++ [CheckStatus acceptStatuses])%list;
         handlers := handlers b |}
  | CCheckContentType cts =>
      {| method := method b; host := host b; path := path b;
         params := params b; headers := headers b; body := body b;
         validators := (validators b ++ [CheckContentType cts])%list;
         handlers := handlers b |}
  | CCheckPeek n f =>
      {| method := method b; host := host b; path := path b;
         params := params b; headers := headers b; body := body b;
         validators := (validators b ++ [CheckPeek n f])%list;
         handlers := handlers b |}
  | CToJSON v =>
      {| method := method b; host := host b; path := path b;
         params := params b; headers := headers b; body := body b;
         validators := validators b;
         handlers := (handlers b ++ [ToJSON v])%list |}
  | CToString sp =>
      {| method := method b; host := host b; path := path b;
         params := params b; headers := headers b; body := body b;
         validators := validators b;
         handlers := (handlers b ++ [ToString sp])%list |}
  | CToBytesBuffer buf =>
      {| method := method b; host := host b; path := path b;
         params := params b; headers := headers b; body := body b;
         validators := validators b;
         handlers := (handlers b ++ [ToBytesBuffer buf])%list |}
  | CToWriter w =>
      {| method := method b; host := host b; path := path b;
         params := params b; headers := headers b; body := body b;
         validators := validators b;
         handlers := (handlers b ++ [ToWriter w])%list |}
  | CToFile name =>
      {| method := method b; host := host b; path := path b;
         params := params b; headers := headers b; body := body b;
         validators := validators b;
         handlers := (handlers b ++ [ToFile name])%list |}
  | CToHeaders h =>
      {| method := "HEAD"; host := host b; path := path b;
         params := params b; headers := headers b; body := body b;
         validators := validators b;
         handlers := (handlers b ++ [ChainHandlers [ToHeaders h; consumeBody]])%list |}
  end.

Definition documented_all (cs : list Call) (b : Builder) : Builder :=
  foldl (λ b c, documented c b) b cs.

End Documented.

(** A configuration function that makes a chain of setter calls on the
    descriptor it is given: [func(rb *Builder) { rb.M1(...).M2(...) }]. *)
Definition bundle `{Builder.Primitives} `{fmt.Formatter} (cs : list Call)
    : requests.Config :=
  λ rb, _ ← chain cs rb; mret ().

(* ===================================================================== *)
(** ** Properties of methods, for stating what the derived setters
       inherit from the primitive ones *)
(* ===================================================================== *)

(** [m] keeps [I]: when the receiver and the heap satisfy [I] and the call
    returns, the returned pointer and the new heap satisfy it. *)
Definition keeps (I : loc -> Heap -> Prop) (m : loc -> Go loc) : Prop :=
  ∀ (rb : loc) (h : Heap) (rb' : loc) (h' : Heap),
    I rb h -> m rb h = Some (rb', h') -> I rb' h'.

(** [m] works in place: when it returns, it returns its receiver, it has
    allocated and freed nothing, and every other descriptor is as it was. *)
Definition in_place (m : loc -> Go loc) : Prop :=
  ∀ (rb : loc) (h : Heap) (rb' : loc) (h' : Heap),
    m rb h = Some (rb', h') ->
    rb' = rb ∧ dom h' = dom h ∧ (∀ r : loc, r ≠ rb -> h' !! r = h !! r).

(** [m] panics on a pointer that holds no descriptor. *)
Definition nil_panics (m : loc -> Go loc) : Prop :=
  ∀ (rb : loc) (h : Heap), h !! rb = None -> m rb h = None.

(** [Q] holds of the eight primitive setters, whatever their arguments. *)
Definition all_primitives `{Builder.Primitives}
    (Q : (loc -> Go loc) -> Prop) : Prop :=
  (∀ m, Q (λ rb, Builder.Method rb m))
  ∧ (∀ s, Q (λ rb, Builder.Host rb s))
  ∧ (∀ s, Q (λ rb, Builder.Path rb s))
  ∧ (∀ key value, Q (λ rb, Builder.Param rb key value))
  ∧ (∀ key value, Q (λ rb, Builder.Header rb key value))
  ∧ (∀ src, Q (λ rb, Builder.Body rb src))
  ∧ (∀ v, Q (λ rb, Builder.AddValidator rb v))
  ∧ (∀ hd, Q (λ rb, Builder.Handle rb hd)).

(** The characters a base64 encoding with padding is made of. *)
Definition base64_char (c : ascii) : bool :=
  let n := nat_of_ascii c in
  ((65 <=? n) && (n <=? 90) || (97 <=? n) && (n <=? 122)
   || (48 <=? n) && (n <=? 57) || (n =? 43) || (n =? 47) || (n =? 61))%nat.

(** The decimal digits. *)
Definition decimal_digit (c : ascii) : bool :=
  let n := nat_of_ascii c in ((48 <=? n) && (n <=? 57))%nat.

(* ===================================================================== *)
(** ** Theorems: package minitrue *)
(* ===================================================================== *)

Section MinitrueFacts.

Import minitrue.
Context {T : Type} `{Comparable T}.

Lemma Cond_true (a b : T) : Cond true a b = a.
Proof. reflexivity. Qed.

Lemma Cond_false (a b : T) : Cond false a b = b.
Proof. reflexivity. Qed.

Lemma First_nonzero (a b : T) : equal a zero = false -> First a b = a.
Proof. intros Ha. unfold First. rewrite Ha. apply Cond_true. Qed.

Lemma First_zero (a b : T) : equal a zero = true -> First a b = b.
Proof. intros Ha. unfold First. rewrite Ha. apply Cond_false. Qed.

Lemma First_zero_l (b : T) : First zero b = b.
Proof. apply First_zero, zero_equal_zero. Qed.

Lemma First_assoc (a b c : T) : First (First a b) c = First a (First b c).
Proof.
  destruct (equal a zero) eqn:Ha.
  - rewrite (First_zero a b Ha), (First_zero a _ Ha). reflexivity.
  - rewrite (First_nonzero a b Ha), (First_nonzero a c Ha),
      (First_nonzero a _ Ha). reflexivity.
Qed.

(** C9: [First a b] is the first non-zero value of the two: it is [a]
    whenever [a != zero] in the sense of Go's comparison on [T], and [b]
    otherwise; this holds at every comparable type, [float64] included. *)
Theorem First_returns_first_nonzero (a b : T) :
  (negb (equal a zero) = true -> First a b = a)
  ∧ (negb (equal a zero) = false -> First a b = b).
Proof.
  split; intros Ha.
  - apply First_nonzero. apply negb_true_iff, Ha.
  - apply First_zero. apply negb_false_iff, Ha.
Qed.

(** C10, as amended: at every comparable type [First] is associative, the
    zero value is a left identity and two zero arguments give the zero
    value; on the right, [First a zero] is [a] when [a != zero] and the
    zero value when [a == zero], so the zero value is a right identity at
    the types whose [==] is identity of values. *)
Theorem First_monoid_laws :
  (∀ a b c : T, First (First a b) c = First a (First b c))
  ∧ (∀ b : T, First zero b = b)
  ∧ First (zero : T) zero = zero
  ∧ (∀ a : T, equal a zero = false -> First a zero = a)
  ∧ (∀ a : T, equal a zero = true -> First a zero = zero)
  ∧ (Identity T -> ∀ a : T, First a zero = a).
Proof.
  split; [exact First_assoc |]. split; [exact First_zero_l |].
  split; [apply First_zero_l |].
  split; [intros a Ha; apply First_nonzero, Ha |].
  split; [intros a Ha; apply First_zero, Ha |].
  intros Hid a. destruct (equal a zero) eqn:Ha.
  - rewrite (First_zero a _ Ha). symmetry. apply Hid, Ha.
  - apply First_nonzero, Ha.
Qed.

End MinitrueFacts.

Lemma First_returns_first_nonzero_witness :
  (negb (minitrue.equal 3 minitrue.zero) = true ∧ minitrue.First 3 7 = 3)
  ∧ (negb (minitrue.equal minitrue.negative_zero minitrue.zero) = false
     ∧ minitrue.First minitrue.negative_zero minitrue.five = minitrue.five).
Proof.
  split.
  - split; [reflexivity |].
    apply (proj1 (First_returns_first_nonzero 3 7)). reflexivity.
  - split; [reflexivity |].
    apply (proj2 (First_returns_first_nonzero
                    minitrue.negative_zero minitrue.five)).
    reflexivity.
Defined.

(** C10, as stated, fails at [float64]: the zero value is not a right
    identity.  [First(-0.0, 0)] is [+0.0], a different value from [-0.0];
    and [First(NaN, 0)] is [NaN], which does not compare equal to the
    argument [NaN]. *)
Lemma First_right_identity_fails_at_float64 :
  ¬ (∀ a : minitrue.float64, minitrue.First a minitrue.zero = a)
  ∧ ¬ (∀ a : minitrue.float64,
         minitrue.equal (minitrue.First a minitrue.zero) a = true).
Proof.
  split; intros Hid.
  - specialize (Hid minitrue.negative_zero).
    apply (f_equal minitrue.Float64bits) in Hid. discriminate Hid.
  - specialize (Hid minitrue.NaN). discriminate Hid.
Qed.

Lemma First_monoid_laws_witness :
  minitrue.equal 4 minitrue.zero = false ∧ minitrue.First 4 minitrue.zero = 4
  ∧ minitrue.equal minitrue.negative_zero minitrue.zero = true
  ∧ minitrue.First minitrue.negative_zero minitrue.zero = minitrue.zero
  ∧ minitrue.First "go" minitrue.zero = "go".
Proof.
  split; [reflexivity |].
  split; [exact (proj1 (proj2 (proj2 (proj2 First_monoid_laws))) 4 eq_refl) |].
  split; [reflexivity |].
  split; [exact (proj1 (proj2 (proj2 (proj2 (proj2 First_monoid_laws))))
                   minitrue.negative_zero eq_refl) |].
  exact (proj2 (proj2 (proj2 (proj2 (proj2 First_monoid_laws))))
           minitrue.string_identity "go").
Defined.

Example First_strings : minitrue.First "" "fallback" = "fallback".
Proof. reflexivity. Qed.

Example First_bools : minitrue.First true false = true.
Proof. reflexivity. Qed.

Example First_floats :
  minitrue.First minitrue.NaN minitrue.five = minitrue.NaN
  ∧ minitrue.First minitrue.zero minitrue.negative_zero = minitrue.negative_zero
  ∧ minitrue.First minitrue.five minitrue.NaN = minitrue.five.
Proof. repeat split; reflexivity. Qed.

(* ===================================================================== *)
(** ** Theorems: the standard library functions *)
(* ===================================================================== *)

Section StrconvFacts.
Import strconv.

Lemma digit_val_digit (d : Z) : 0 <= d < 10 -> digit_val (digit d) = Some d.
Proof.
  intros Hd.
  assert (Hc : d = 0 ∨ d = 1 ∨ d = 2 ∨ d = 3 ∨ d = 4 ∨ d = 5 ∨ d = 6
               ∨ d = 7 ∨ d = 8 ∨ d = 9) by lia.
  repeat (destruct Hc as [-> | Hc]; [reflexivity |]). subst d. reflexivity.
Qed.

Lemma digit_not_minus (d : Z) : 0 <= d < 10 -> Ascii.eqb (digit d) "-" = false.
Proof.
  intros Hd.
  assert (Hc : d = 0 ∨ d = 1 ∨ d = 2 ∨ d = 3 ∨ d = 4 ∨ d = 5 ∨ d = 6
               ∨ d = 7 ∨ d = 8 ∨ d = 9) by lia.
  repeat (destruct Hc as [-> | Hc]; [reflexivity |]). subst d. reflexivity.
Qed.

(** The digits [formatBits] writes in front of [a] read back as [u]. *)
Lemma parse_formatBits (n : nat) :
  ∀ u, 0 <= u < 10 ^ Z.of_nat n ->
  ∃ k, 0 <= k ∧ ∀ a acc,
    parse_digits (formatBits n u a) acc = parse_digits a (acc * 10 ^ k + u).
Proof.
  induction n as [| n IH]; intros u Hu.
  - exists 0. split; [lia |]. intros a acc. cbn [formatBits]. f_equal. lia.
  - simpl formatBits. destruct (Z.ltb_spec u 10) as [Hlt | Hge].
    + exists 1. split; [lia |]. intros a acc. cbn [parse_digits].
      rewrite digit_val_digit by lia. f_equal. lia.
    + assert (Hq : 0 <= u / 10 < 10 ^ Z.of_nat n).
      { rewrite Nat2Z.inj_succ, Z.pow_succ_r in Hu by lia.
        split; [apply Z.div_pos; lia | apply Z.div_lt_upper_bound; lia]. }
      destruct (IH _ Hq) as (k & Hk & IHk).
      exists (k + 1). split; [lia |]. intros a acc.
      rewrite IHk. cbn [parse_digits]. rewrite digit_val_digit
        by (apply Z.mod_pos_bound; lia).
      f_equal. rewrite Z.pow_add_r by lia.
      pose proof (Z.div_mod u 10 ltac:(lia)). lia.
Qed.

Lemma formatBits_head (n : nat) :
  ∀ u a, 0 <= u ->
  ∃ d rest, 0 <= d < 10 ∧ formatBits (S n) u a = String (digit d) rest.
Proof.
  induction n as [| n IH]; intros u a Hu.
  - cbn [formatBits]. destruct (Z.ltb_spec u 10).
    + exists u, a. split; [lia | reflexivity].
    + exists (u mod 10), a. split; [apply Z.mod_pos_bound; lia | reflexivity].
  - change (formatBits (S (S n)) u a)
      with (if u <? 10 then String (digit u) a
            else formatBits (S n) (u / 10) (String (digit (u mod 10)) a)).
    destruct (Z.ltb_spec u 10).
    + exists u, a. split; [lia | reflexivity].
    + apply IH. apply Z.div_pos; lia.
Qed.

Lemma parse_formatBits_20 (u : Z) :
  0 <= u <= 2 ^ 63 -> parse_digits (formatBits 20 u "") 0 = Some u.
Proof.
  intros Hu.
  destruct (parse_formatBits 20 u) as (k & Hk & Hparse).
  { change (10 ^ Z.of_nat 20) with 100000000000000000000.
    change (2 ^ 63) with 9223372036854775808 in Hu. lia. }
  rewrite Hparse. cbn [parse_digits]. f_equal.
Qed.

(** [Itoa] writes a decimal numeral of its argument. *)
Lemma parse_decimal_Itoa (i : Z) : is_int i -> parse_decimal (Itoa i) = Some i.
Proof.
  unfold is_int, Itoa. intros Hi. destruct (Z.ltb_spec i 0) as [Hneg | Hpos].
  - unfold parse_decimal. rewrite Ascii.eqb_refl.
    destruct (formatBits_head 19 (- i) "" ltac:(lia)) as (d & rest & Hd & Heq).
    pose proof (parse_formatBits_20 (- i) ltac:(lia)) as Hp.
    rewrite Heq in *. rewrite Hp. cbn. f_equal. lia.
  - destruct (formatBits_head 19 i "" Hpos) as (d & rest & Hd & Heq).
    pose proof (parse_formatBits_20 i ltac:(lia)) as Hp.
    rewrite Heq in *. unfold parse_decimal.
    rewrite (digit_not_minus d Hd). exact Hp.
Qed.

End StrconvFacts.

Section Base64Facts.
Import base64.

Lemma byte_range (c : ascii) : 0 <= byte c < 256.
Proof. unfold byte. pose proof (nat_ascii_bounded c). lia. Qed.

Lemma ascii_of_byte (c : ascii) : ascii_of_nat (Z.to_nat (byte c)) = c.
Proof. unfold byte. rewrite Nat2Z.id. apply ascii_nat_embedding. Qed.

(** Bits that do not overlap add up. *)
Lemma lor_high_low (hi lo k : Z) :
  0 <= k -> 0 <= lo < 2 ^ k -> Z.lor (hi * 2 ^ k) lo = hi * 2 ^ k + lo.
Proof.
  intros Hk Hlo.
  rewrite <- (Z.add_lor_land (hi * 2 ^ k) lo).
  assert (Hdisj : Z.land (hi * 2 ^ k) lo = 0).
  { apply Z.bits_inj'. intros n Hn. rewrite Z.land_spec, Z.bits_0.
    destruct (Z.lt_ge_cases n k) as [Hlt | Hge].
    - rewrite Z.mul_pow2_bits_low by lia. reflexivity.
    - rewrite <- (Z.mod_small lo (2 ^ k)) by lia.
      rewrite Z.mod_pow2_bits_high by lia. apply andb_false_r. }
  rewrite Hdisj. lia.
Qed.

Lemma decode_encode (i : Z) : 0 <= i < 64 -> decode (encode i) = Some i.
Proof.
  intros Hi. rewrite <- (Z2Nat.id i) by lia.
  assert (Hn : (Z.to_nat i < 64)%nat) by lia.
  generalize dependent (Z.to_nat i). intros n Hn.
  do 64 (destruct n as [| n]; [reflexivity |]). lia.
Qed.

Lemma decode_padding : decode StdPadding = None.
Proof. reflexivity. Qed.

Lemma sextet_range (val k : Z) : 0 <= Z.land (Z.shiftr val k) 63 < 64.
Proof.
  change 63 with (Z.ones 6). rewrite Z.land_ones by lia.
  apply Z.mod_pos_bound. lia.
Qed.

Lemma low_sextet_range (val : Z) : 0 <= Z.land val 63 < 64.
Proof.
  change 63 with (Z.ones 6). rewrite Z.land_ones by lia.
  apply Z.mod_pos_bound. lia.
Qed.

(** The four sextets of a 24-bit value put together give it back. *)
Lemma group_sextets (val : Z) :
  0 <= val < 2 ^ 24 ->
  group (Z.land (Z.shiftr val 18) 63) (Z.land (Z.shiftr val 12) 63)
        (Z.land (Z.shiftr val 6) 63) (Z.land val 63) = val.
Proof.
  intros Hval. unfold group.
  change 63 with (Z.ones 6). rewrite !Z.land_ones by lia.
  rewrite !Z.shiftr_div_pow2, !Z.shiftl_mul_pow2 by lia.
  set (x0 := (val / 2 ^ 18) mod 2 ^ 6).
  set (x1 := (val / 2 ^ 12) mod 2 ^ 6).
  set (x2 := (val / 2 ^ 6) mod 2 ^ 6).
  set (x3 := val mod 2 ^ 6).
  assert (H0 : 0 <= x0 < 2 ^ 6) by (apply Z.mod_pos_bound; lia).
  assert (H1 : 0 <= x1 < 2 ^ 6) by (apply Z.mod_pos_bound; lia).
  assert (H2 : 0 <= x2 < 2 ^ 6) by (apply Z.mod_pos_bound; lia).
  assert (H3 : 0 <= x3 < 2 ^ 6) by (apply Z.mod_pos_bound; lia).
  change (2 ^ 6) with 64 in *. change (2 ^ 24) with 16777216 in *.
  rewrite (lor_high_low x0 (x1 * 2 ^ 12) 18) by lia.
  replace (x0 * 2 ^ 18 + x1 * 2 ^ 12) with ((x0 * 64 + x1) * 2 ^ 12) by lia.
  rewrite (lor_high_low _ (x2 * 2 ^ 6) 12) by lia.
  replace ((x0 * 64 + x1) * 2 ^ 12 + x2 * 2 ^ 6)
    with (((x0 * 64 + x1) * 64 + x2) * 2 ^ 6) by lia.
  rewrite (lor_high_low _ x3 6) by lia.
  subst x0 x1 x2 x3.
  change (2 ^ 18) with 262144. change (2 ^ 12) with 4096.
  change (2 ^ 6) with 64.
  clear H0 H1 H2 H3. Z.div_mod_to_equations. lia.
Qed.

Lemma bytes_value (a b c : Z) :
  0 <= a < 256 -> 0 <= b < 256 -> 0 <= c < 256 ->
  Z.lor (Z.lor (Z.shiftl a 16) (Z.shiftl b 8)) c = a * 65536 + b * 256 + c.
Proof.
  intros Ha Hb Hc. rewrite !Z.shiftl_mul_pow2 by lia.
  rewrite (lor_high_low a (b * 2 ^ 8) 16) by lia.
  replace (a * 2 ^ 16 + b * 2 ^ 8) with ((a * 256 + b) * 2 ^ 8) by lia.
  rewrite (lor_high_low _ c 8) by lia. lia.
Qed.

Lemma octets_of_value (a b c : Z) :
  0 <= a < 256 -> 0 <= b < 256 -> 0 <= c < 256 ->
  let val := a * 65536 + b * 256 + c in
  Z.land (Z.shiftr val 16) 255 = a
  ∧ Z.land (Z.shiftr val 8) 255 = b
  ∧ Z.land (Z.shiftr val 0) 255 = c.
Proof.
  intros Ha Hb Hc val. subst val.
  change 255 with (Z.ones 8). rewrite !Z.land_ones by lia.
  rewrite !Z.shiftr_div_pow2 by lia.
  change (2 ^ 16) with 65536. change (2 ^ 8) with 256.
  change (2 ^ 0) with 1. repeat split; Z.div_mod_to_equations; lia.
Qed.

Lemma Encode_three (s0 s1 s2 : ascii) (rest : list ascii) :
  Encode (s0 :: s1 :: s2 :: rest) =
  let val := Z.lor (Z.lor (Z.shiftl (byte s0) 16) (Z.shiftl (byte s1) 8))
                   (byte s2) in
  encode (Z.land (Z.shiftr val 18) 63)
  :: encode (Z.land (Z.shiftr val 12) 63)
  :: encode (Z.land (Z.shiftr val 6) 63)
  :: encode (Z.land val 63)
  :: Encode rest.
Proof. reflexivity. Qed.

Lemma Decode_full (d0 d1 d2 d3 : Z) (rest out : list ascii) :
  0 <= d0 < 64 -> 0 <= d1 < 64 -> 0 <= d2 < 64 -> 0 <= d3 < 64 ->
  Decode rest = Some out ->
  Decode (encode d0 :: encode d1 :: encode d2 :: encode d3 :: rest) =
  Some (octet (group d0 d1 d2 d3) 16 :: octet (group d0 d1 d2 d3) 8
        :: octet (group d0 d1 d2 d3) 0 :: out).
Proof.
  intros H0 H1 H2 H3 Hrest. cbn [Decode].
  rewrite !decode_encode by assumption. rewrite Hrest. reflexivity.
Qed.

Lemma Decode_two (d0 d1 d2 : Z) :
  0 <= d0 < 64 -> 0 <= d1 < 64 -> 0 <= d2 < 64 ->
  Decode [encode d0; encode d1; encode d2; StdPadding] =
  Some [octet (group d0 d1 d2 0) 16; octet (group d0 d1 d2 0) 8].
Proof.
  intros H0 H1 H2. cbn [Decode].
  rewrite !decode_encode by assumption. rewrite decode_padding.
  reflexivity.
Qed.

Lemma Decode_one (d0 d1 : Z) :
  0 <= d0 < 64 -> 0 <= d1 < 64 ->
  Decode [encode d0; encode d1; StdPadding; StdPadding] =
  Some [octet (group d0 d1 0 0) 16].
Proof.
  intros H0 H1. cbn [Decode].
  rewrite !decode_encode by assumption. rewrite decode_padding.
  reflexivity.
Qed.

Lemma octet_bytes (s0 s1 s2 : ascii) :
  let val := byte s0 * 65536 + byte s1 * 256 + byte s2 in
  octet val 16 = s0 ∧ octet val 8 = s1 ∧ octet val 0 = s2.
Proof.
  intros val. unfold octet.
  destruct (octets_of_value (byte s0) (byte s1) (byte s2)
              (byte_range s0) (byte_range s1) (byte_range s2))
    as (E0 & E1 & E2).
  fold val in E0, E1, E2. rewrite E0, E1, E2, !ascii_of_byte. auto.
Qed.

(** Decoding what [Encode] produced gives the bytes back. *)
Lemma Decode_Encode (src : list ascii) : Decode (Encode src) = Some src.
Proof.
  remember (List.length src) as n eqn:Hn.
  revert src Hn. induction (lt_wf n) as [n _ IH]. intros src Hn.
  destruct src as [| s0 [| s1 [| s2 rest]]].
  - reflexivity.
  - cbn [Encode].
    pose proof (byte_range s0) as R0.
    set (val := Z.shiftl (byte s0) 16).
    assert (Hval : val = byte s0 * 65536 + 0 * 256 + 0).
    { subst val. rewrite Z.shiftl_mul_pow2 by lia. lia. }
    rewrite Decode_one by apply sextet_range.
    assert (Hlow : Z.land (Z.shiftr val 6) 63 = 0 ∧ Z.land val 63 = 0).
    { rewrite Hval. change 63 with (Z.ones 6). rewrite !Z.land_ones by lia.
      rewrite Z.shiftr_div_pow2 by lia. change (2 ^ 6) with 64.
      split; Z.div_mod_to_equations; lia. }
    pose proof (group_sextets val) as Hg.
    destruct Hlow as [Hl6 Hl0]. rewrite Hl6, Hl0 in Hg.
    rewrite Hg by (rewrite Hval; change (2 ^ 24) with 16777216; lia).
    unfold octet.
    destruct (octets_of_value (byte s0) 0 0 R0 ltac:(lia) ltac:(lia))
      as (E0 & _ & _).
    rewrite Hval, E0, ascii_of_byte. reflexivity.
  - cbn [Encode].
    pose proof (byte_range s0) as R0. pose proof (byte_range s1) as R1.
    set (val := Z.lor (Z.shiftl (byte s0) 16) (Z.shiftl (byte s1) 8)).
    assert (Hval : val = byte s0 * 65536 + byte s1 * 256 + 0).
    { subst val. rewrite <- (bytes_value _ _ 0) by lia.
      rewrite Z.lor_0_r. reflexivity. }
    rewrite Decode_two by apply sextet_range.
    assert (Hlow : Z.land val 63 = 0).
    { rewrite Hval. change 63 with (Z.ones 6). rewrite Z.land_ones by lia.
      change (2 ^ 6) with 64. Z.div_mod_to_equations. lia. }
    pose proof (group_sextets val) as Hg. rewrite Hlow in Hg.
    rewrite Hg by (rewrite Hval; change (2 ^ 24) with 16777216; lia).
    unfold octet.
    destruct (octets_of_value (byte s0) (byte s1) 0 R0 R1 ltac:(lia))
      as (E0 & E1 & _).
    rewrite Hval, E0, E1, !ascii_of_byte. reflexivity.
  - rewrite Encode_three. cbv zeta.
    pose proof (byte_range s0) as R0. pose proof (byte_range s1) as R1.
    pose proof (byte_range s2) as R2.
    rewrite (bytes_value _ _ _ R0 R1 R2).
    set (val := byte s0 * 65536 + byte s1 * 256 + byte s2).
    rewrite (Decode_full _ _ _ _ (Encode rest) rest);
      try apply sextet_range; try apply low_sextet_range.
    + rewrite group_sextets
        by (subst val; change (2 ^ 24) with 16777216; lia).
      destruct (octet_bytes s0 s1 s2) as (E0 & E1 & E2).
      fold val in E0, E1, E2. rewrite E0, E1, E2. reflexivity.
    + apply (IH (List.length rest)); [subst n; simpl; lia | reflexivity].
Qed.

(** A credential encoded for [Authorization: Basic] reads back as it
    was given. *)
Lemma DecodeString_EncodeToString (s : string) :
  DecodeString (EncodeToString s) = Some s.
Proof.
  unfold DecodeString, EncodeToString.
  rewrite list_ascii_of_string_of_list_ascii, Decode_Encode. simpl.
  rewrite string_of_list_ascii_of_string. reflexivity.
Qed.

Lemma length_Encode (src : list ascii) :
  List.length (Encode src) = EncodedLen (List.length src).
Proof.
  remember (List.length src) as n eqn:Hn.
  revert src Hn. induction (lt_wf n) as [n _ IH]. intros src Hn.
  destruct src as [| s0 [| s1 [| s2 rest]]]; subst n; try reflexivity.
  rewrite Encode_three. cbv zeta. cbn [List.length].
  rewrite (IH (List.length rest)) by (simpl; lia || reflexivity).
  unfold EncodedLen.
  replace (S (S (S (List.length rest))) + 2)%nat
    with (1 * 3 + (List.length rest + 2))%nat by lia.
  rewrite Nat.div_add_l by lia. lia.
Qed.
End Base64Facts.

Example Encode_rfc4648 :
  base64.EncodeToString "" = ""
  ∧ base64.EncodeToString "f" = "Zg=="
  ∧ base64.EncodeToString "fo" = "Zm8="
  ∧ base64.EncodeToString "foo" = "Zm9v"
  ∧ base64.EncodeToString "foob" = "Zm9vYg=="
  ∧ base64.EncodeToString "fooba" = "Zm9vYmE="
  ∧ base64.EncodeToString "foobar" = "Zm9vYmFy".
Proof. repeat split; reflexivity. Qed.

Example Itoa_values :
  strconv.Itoa 0 = "0"
  ∧ strconv.Itoa 42 = "42"
  ∧ strconv.Itoa (-7) = "-7"
  ∧ strconv.Itoa 9223372036854775807 = "9223372036854775807"
  ∧ strconv.Itoa (-9223372036854775808) = "-9223372036854775808".
Proof. repeat split; reflexivity. Qed.

(* ===================================================================== *)
(** ** Theorems: the monad of Go computations *)
(* ===================================================================== *)

Section GoFacts.

Lemma bind_run {A B : Type} (m : Go A) (k : A -> Go B) (h : Heap) :
  (x ← m; k x) h =
  match m h with
  | Some (a, h') => k a h'
  | None => None
  end.
Proof. reflexivity. Qed.

Lemma update_live (f : Builder -> Builder) (rb : loc) (h : Heap) (b : Builder) :
  h !! rb = Some b -> update f rb h = Some (rb, <[rb := f b]> h).
Proof. intros Hb. unfold update. rewrite Hb. reflexivity. Qed.

Lemma update_nil (f : Builder -> Builder) (rb : loc) (h : Heap) :
  h !! rb = None -> update f rb h = None.
Proof. intros Hb. unfold update. rewrite Hb. reflexivity. Qed.

(** Two writes through the same pointer leave one descriptor, changed
    twice. *)
Lemma update_twice (f g : Builder -> Builder) (rb : loc) (h : Heap) (b : Builder) :
  h !! rb = Some b ->
  (rb' ← update f rb; update g rb') h = Some (rb, <[rb := g (f b)]> h).
Proof.
  intros Hb. rewrite bind_run, (update_live f rb h b Hb).
  rewrite (update_live g rb _ (f b)) by apply lookup_insert_eq.
  rewrite insert_insert_eq. reflexivity.
Qed.

End GoFacts.

(* ===================================================================== *)
(** ** Theorems: the Builder methods over any primitive setters *)
(* ===================================================================== *)

(** C7: each verb shortcut is the primitive [Method] setter called with the
    fixed constant, and nothing else. *)
Theorem verb_shortcuts_delegate (P : Builder.Primitives) (rb : loc) :
  Builder.Head rb = Builder.Method rb "HEAD"
  ∧ Builder.Put rb = Builder.Method rb "PUT"
  ∧ Builder.Patch rb = Builder.Method rb "PATCH"
  ∧ Builder.Delete rb = Builder.Method rb "DELETE".
Proof. repeat split; reflexivity. Qed.

(** C4: each header convenience setter is the generic [Header] setter
    called with the computed value; [BasicAuth] sends "Basic " followed by
    the base64 encoding of [username:password], which decodes back to it,
    and [Bearer] sends "Bearer " followed by the token. *)
Theorem header_setters_delegate (P : Builder.Primitives) (rb : loc)
    (s username password token : string) :
  Builder.Accept rb s = Builder.Header rb "Accept" s
  ∧ Builder.CacheControl rb s = Builder.Header rb "Cache-Control" s
  ∧ Builder.ContentType rb s = Builder.Header rb "Content-Type" s
  ∧ Builder.UserAgent rb s = Builder.Header rb "User-Agent" s
  ∧ Builder.BasicAuth rb username password =
      Builder.Header rb "Authorization"
        ("Basic " +:+ base64.EncodeToString (username +:+ ":" +:+ password))
  ∧ base64.DecodeString
      (base64.EncodeToString (username +:+ ":" +:+ password)) =
      Some (username +:+ ":" +:+ password)
  ∧ Builder.Bearer rb token =
      Builder.Header rb "Authorization" ("Bearer " +:+ token).
Proof.
  repeat split; try reflexivity. apply DecodeString_EncodeToString.
Qed.

(** C8: [Hostf] and [Pathf] are [Host] and [Path] applied to the formatted
    string, and [ParamInt] is [Param] applied to the decimal numeral of the
    integer. *)
Theorem formatted_setters_delegate (P : Builder.Primitives) (F : fmt.Formatter)
    (rb : loc) (format : string) (a : list GoValue) (key : string) (value : Z) :
  strconv.is_int value ->
  Builder.Hostf rb format a = Builder.Host rb (fmt.Sprintf format a)
  ∧ Builder.Pathf rb format a = Builder.Path rb (fmt.Sprintf format a)
  ∧ Builder.ParamInt rb key value = Builder.Param rb key (strconv.Itoa value)
  ∧ strconv.parse_decimal (strconv.Itoa value) = Some value.
Proof.
  intros Hv. repeat split; try reflexivity. apply parse_decimal_Itoa, Hv.
Qed.

Lemma formatted_setters_delegate_witness :
  strconv.is_int (-42)
  ∧ @Builder.ParamInt Builder.core 1%positive "page" (-42) =
    @Builder.Param Builder.core 1%positive "page" "-42".
Proof.
  assert (Hv : strconv.is_int (-42)) by (unfold strconv.is_int; lia).
  split; [exact Hv |].
  exact (proj1 (proj2 (proj2
    (formatted_setters_delegate Builder.core fmt.verbatim 1%positive
       "" [] "page" (-42) Hv)))).
Defined.

(* ===================================================================== *)
(** ** Theorems: the Builder methods over the primitive setters of the
       package *)
(* ===================================================================== *)

Section CoreFacts.

#[local] Existing Instance Builder.core.
Context `{fmt.Formatter}.

(** What one call does to the heap: the descriptor behind the receiver
    is replaced by its documented change and the receiver is returned. *)
Lemma invoke_documented (c : Call) (rb : loc) (h : Heap) (b : Builder) :
  h !! rb = Some b ->
  invoke c rb h = Some (rb, <[rb := documented c b]> h).
Proof.
  intros Hb.
  destruct c; cbn [invoke documented];
    first [ exact (update_live _ rb h b Hb)
          | exact (update_twice _ _ rb h b Hb) ].
Qed.

Lemma chain_documented (cs : list Call) :
  ∀ (rb : loc) (h : Heap) (b : Builder),
  h !! rb = Some b ->
  chain cs rb h = Some (rb, <[rb := documented_all cs b]> h).
Proof.
  induction cs as [| c cs IH]; intros rb h b Hb.
  - cbn. rewrite insert_id by exact Hb. reflexivity.
  - cbn [chain]. rewrite bind_run, (invoke_documented c rb h b Hb).
    rewrite (IH rb _ (documented c b)) by apply lookup_insert_eq.
    rewrite insert_insert_eq. reflexivity.
Qed.


Lemma documented_all_app (xs ys : list Call) (b : Builder) :
  documented_all (xs ++ ys) b = documented_all ys (documented_all xs b).
Proof. apply foldl_app. Qed.

(** [Config] with configuration functions that are chains of setter
    calls: the chains run one after the other on the same descriptor. *)
Lemma Config_bundles (bundles : list (list Call)) :
  ∀ (rb : loc) (h : Heap) (b : Builder),
  h !! rb = Some b ->
  Builder.Config rb (map bundle bundles) h =
  Some (rb, <[rb := documented_all (List.concat bundles) b]> h).
Proof.
  assert (Hgo : ∀ (rb : loc) (h : Heap) (b : Builder),
             h !! rb = Some b ->
             Builder.apply_configs (map bundle bundles) rb h =
             Some ((), <[rb := documented_all (List.concat bundles) b]> h)).
  { induction bundles as [| cs bundles IH]; intros rb h b Hb.
    - cbn. rewrite insert_id by exact Hb. reflexivity.
    - cbn [map Builder.apply_configs List.concat]. rewrite bind_run.
      unfold bundle at 1. rewrite bind_run, (chain_documented cs rb h b Hb).
      cbn [mret Go_ret].
      rewrite (IH rb _ (documented_all cs b)) by apply lookup_insert_eq.
      rewrite insert_insert_eq, documented_all_app. reflexivity. }
  intros rb h b Hb. cbn [Builder.Config Builder.core].
  rewrite bind_run, (Hgo rb h b Hb). reflexivity.
Qed.

(** C1: a chain of setter calls returns the receiver it was started on,
    allocates nothing, leaves every other descriptor alone, and leaves
    behind the receiver the descriptor obtained by applying the
    documented change of each call in call order; [Config] does the same
    with the calls its configuration functions make, taken in order. *)
Theorem chain_mutates_in_place (cs : list Call) (bundles : list (list Call))
    (rb : loc) (h : Heap) (b : Builder) :
  h !! rb = Some b ->
  (∃ h' : Heap,
     chain cs rb h = Some (rb, h')
     ∧ h' !! rb = Some (documented_all cs b)
     ∧ dom h' = dom h
     ∧ (∀ r : loc, r ≠ rb -> h' !! r = h !! r))
  ∧ (∃ h' : Heap,
     Builder.Config rb (map bundle bundles) h = Some (rb, h')
     ∧ h' !! rb = Some (documented_all (List.concat bundles) b)
     ∧ dom h' = dom h
     ∧ (∀ r : loc, r ≠ rb -> h' !! r = h !! r)).
Proof.
  intros Hb.
  assert (Hframe : ∀ b' : Builder,
             (<[rb := b']> h) !! rb = Some b'
             ∧ dom (<[rb := b']> h) = dom h
             ∧ (∀ r : loc, r ≠ rb -> (<[rb := b']> h) !! r = h !! r)).
  { intros b'. split; [apply lookup_insert_eq |]. split.
    - apply dom_insert_lookup_L. rewrite Hb. eauto.
    - intros r Hr. apply lookup_insert_ne. congruence. }
  split.
  - exists (<[rb := documented_all cs b]> h).
    split; [apply chain_documented, Hb | apply Hframe].
  - exists (<[rb := documented_all (List.concat bundles) b]> h).
    split; [apply Config_bundles, Hb | apply Hframe].
Qed.

(** *** Headers *)

Lemma header_values_put_single (name value : string) (hs : Values) :
  single_value name = true ->
  header_values name (put_header name value hs) = [value].
Proof.
  intros Hs. unfold put_header, header_values. rewrite Hs.
  rewrite lookup_insert_eq. reflexivity.
Qed.

Lemma header_values_put_other (name other value : string) (hs : Values) :
  lower other ≠ lower name ->
  header_values other (put_header name value hs) = header_values other hs.
Proof.
  intros Hne. unfold put_header, header_values at 1 3.
  destruct (single_value name); rewrite lookup_insert_ne by congruence;
    reflexivity.
Qed.

(** C2: [BodyJSON] sets the body producer to the JSON producer of [v] and
    leaves "application/json" as the only Content-Type, whatever was set
    before; [BodyForm] does the same with the form producer and
    "application/x-www-form-urlencoded". *)
Theorem body_setters_set_content_type (rb : loc) (h : Heap) (b : Builder)
    (v : GoValue) (data : Values) :
  h !! rb = Some b ->
  (∃ b' : Builder,
     Builder.BodyJSON rb v h = Some (rb, <[rb := b']> h)
     ∧ body b' = Some (BodyJSON v)
     ∧ header_values "Content-Type" (headers b') = ["application/json"])
  ∧ (∃ b' : Builder,
     Builder.BodyForm rb data h = Some (rb, <[rb := b']> h)
     ∧ body b' = Some (BodyForm data)
     ∧ header_values "Content-Type" (headers b') =
         ["application/x-www-form-urlencoded"]).
Proof.
  intros Hb. split.
  - exists (set_header "Content-Type" "application/json"
              (set_body (BodyJSON v) b)).
    split; [exact (update_twice _ _ rb h b Hb) |].
    split; [reflexivity |].
    apply header_values_put_single. reflexivity.
  - exists (set_header "Content-Type" "application/x-www-form-urlencoded"
              (set_body (BodyForm data) b)).
    split; [exact (update_twice _ _ rb h b Hb) |].
    split; [reflexivity |].
    apply header_values_put_single. reflexivity.
Qed.

(** Two writes of a single-value header through the same pointer leave
    the second value alone in effect. *)
Lemma overwrite_last (name v1 v2 : string) (rb : loc) (h : Heap)
    (b : Builder) :
  single_value name = true ->
  h !! rb = Some b ->
  ∃ b' : Builder,
    (rb' ← update (set_header name v1) rb;
     update (set_header name v2) rb') h = Some (rb, <[rb := b']> h)
    ∧ header_values name (headers b') = [v2].
Proof.
  intros Hs Hb. exists (set_header name v2 (set_header name v1 b)).
  split; [apply update_twice, Hb |].
  cbn [set_header headers]. apply header_values_put_single, Hs.
Qed.

(** C3: after two calls of [ContentType], or two calls of the
    Authorization setters [BasicAuth] and [Bearer], only the value of the
    last call is in effect for that header. *)
Theorem overwrite_setters_last_wins (rb : loc) (h : Heap) (b : Builder)
    (ct1 ct2 u1 p1 u2 p2 t1 t2 : string) :
  h !! rb = Some b ->
  (∃ b' : Builder,
     (rb' ← Builder.ContentType rb ct1; Builder.ContentType rb' ct2) h =
       Some (rb, <[rb := b']> h)
     ∧ header_values "Content-Type" (headers b') = [ct2])
  ∧ (∃ b' : Builder,
     (rb' ← Builder.BasicAuth rb u1 p1; Builder.BasicAuth rb' u2 p2) h =
       Some (rb, <[rb := b']> h)
     ∧ header_values "Authorization" (headers b') =
         ["Basic " +:+ base64.EncodeToString (u2 +:+ ":" +:+ p2)])
  ∧ (∃ b' : Builder,
     (rb' ← Builder.Bearer rb t1; Builder.Bearer rb' t2) h =
       Some (rb, <[rb := b']> h)
     ∧ header_values "Authorization" (headers b') = ["Bearer " +:+ t2])
  ∧ (∃ b' : Builder,
     (rb' ← Builder.BasicAuth rb u1 p1; Builder.Bearer rb' t2) h =
       Some (rb, <[rb := b']> h)
     ∧ header_values "Authorization" (headers b') = ["Bearer " +:+ t2])
  ∧ (∃ b' : Builder,
     (rb' ← Builder.Bearer rb t1; Builder.BasicAuth rb' u2 p2) h =
       Some (rb, <[rb := b']> h)
     ∧ header_values "Authorization" (headers b') =
         ["Basic " +:+ base64.EncodeToString (u2 +:+ ":" +:+ p2)]).
Proof.
  intros Hb.
  split; [| split; [| split; [| split]]].
  - exact (overwrite_last "Content-Type" _ _ rb h b eq_refl Hb).
  - exact (overwrite_last "Authorization" _ _ rb h b eq_refl Hb).
  - exact (overwrite_last "Authorization" _ _ rb h b eq_refl Hb).
  - exact (overwrite_last "Authorization" _ _ rb h b eq_refl Hb).
  - exact (overwrite_last "Authorization" _ _ rb h b eq_refl Hb).
Qed.


(** *** The header-capture composition *)

Lemma run_header_capture
    (decode : ResponseHandler -> http.Response -> Maps ->
              option (error * (http.Response * Maps)))
    (hm : loc) (res : http.Response) (m : Maps) (old : Values) :
  m !! hm = Some old ->
  run_handler decode (ChainHandlers [ToHeaders hm; consumeBody]) res m =
  Some (None, (drain res, <[hm := http.Header res ∪ old]> m)).
Proof. intros Hm. cbn. rewrite Hm. reflexivity. Qed.

(** C5: [ToHeaders] sets the method to HEAD and appends exactly one
    handler, the two-stage composition; when that handler runs, its
    outer stage copies the response headers into the map and its inner
    stage drains the body, whatever the body is. *)
Theorem ToHeaders_sets_HEAD_and_appends_capture (rb hm : loc) (h : Heap)
    (b : Builder) :
  h !! rb = Some b ->
  ∃ b' : Builder,
    Builder.ToHeaders rb hm h = Some (rb, <[rb := b']> h)
    ∧ method b' = "HEAD"
    ∧ handlers b' =
        (handlers b ++ [ChainHandlers [ToHeaders hm; consumeBody]])%list
    ∧ (host b', path b', params b', headers b', body b', validators b') =
        (host b, path b, params b, headers b, body b, validators b)
    ∧ (∀ decode res (m : Maps) (old : Values),
         m !! hm = Some old ->
         ∃ res' : http.Response,
           run_handler decode (ChainHandlers [ToHeaders hm; consumeBody])
             res m =
           Some (None, (res', <[hm := http.Header res ∪ old]> m))
           ∧ http.Body res' = "").
Proof.
  intros Hb.
  exists (add_handler (ChainHandlers [ToHeaders hm; consumeBody])
            (set_method "HEAD" b)).
  split; [exact (update_twice _ _ rb h b Hb) |].
  split; [reflexivity |]. split; [reflexivity |]. split; [reflexivity |].
  intros decode res m old Hm. exists (drain res).
  split; [apply run_header_capture, Hm | reflexivity].
Qed.

(** *** Config and Configure *)

Lemma Config_nil (rb : loc) (h : Heap) :
  Builder.Config rb [] h = Some (rb, h).
Proof. reflexivity. Qed.

Lemma Config_cons (cfg : requests.Config) (rest : list requests.Config)
    (rb : loc) (h : Heap) :
  Builder.Config rb (cfg :: rest) h =
  match cfg rb h with
  | Some (_, h') => Builder.Config rb rest h'
  | None => None
  end.
Proof.
  cbn [Builder.Config Builder.core Builder.apply_configs].
  rewrite !bind_run. destruct (cfg rb h) as [[[] h'] |]; reflexivity.
Qed.

End CoreFacts.

(** C6: [Configure] returns what [Config] returns on a new zero-valued
    descriptor, at a location no other pointer refers to; [Config] calls
    the configuration functions in order on the same receiver, each one
    running on the heap the previous one left. *)
Theorem Configure_is_Config_on_new_Builder :
  (∀ (P : Builder.Primitives) (cfgs : list requests.Config) (h : Heap),
     Configure cfgs h =
     Builder.Config (fresh (dom h)) cfgs (<[fresh (dom h) := zero_Builder]> h))
  ∧ (∀ h : Heap, h !! fresh (dom h) = None)
  ∧ (∀ (rb : loc) (h : Heap), @Builder.Config Builder.core rb [] h = Some (rb, h))
  ∧ (∀ (cfg : requests.Config) (rest : list requests.Config) (rb : loc)
       (h : Heap),
       @Builder.Config Builder.core rb (cfg :: rest) h =
       match cfg rb h with
       | Some (_, h') => @Builder.Config Builder.core rb rest h'
       | None => None
       end).
Proof.
  split; [| split; [| split]].
  - intros P cfgs h. reflexivity.
  - intros h. apply not_elem_of_dom, is_fresh.
  - apply Config_nil.
  - apply Config_cons.
Qed.

(** *** The theorems at concrete descriptors *)

Lemma chain_mutates_in_place_witness :
  ({[1%positive := zero_Builder; 2%positive := zero_Builder]} : Heap)
    !! 1%positive = Some zero_Builder
  ∧ (∃ h' : Heap,
       @chain Builder.core fmt.verbatim
         [CPut; CHost "api.example.com"; CPathf "/x" []; CParamInt "n" 7;
          CAccept "text/html"; CAccept "text/plain"; CBearer "t";
          CBodyJSON (VInt 1); CCheckStatus [200]; CToString 5%positive]
         1%positive {[1%positive := zero_Builder; 2%positive := zero_Builder]}
         = Some (1%positive, h')
       ∧ h' !! 1%positive =
           Some {| method := "PUT"; host := "api.example.com"; path := "/x";
                   params := [("n", "7")];
                   headers := {["accept" := ["text/html"; "text/plain"];
                                "authorization" := ["Bearer t"];
                                "content-type" := ["application/json"]]};
                   body := Some (BodyJSON (VInt 1));
                   validators := [CheckStatus [200]];
                   handlers := [ToString 5%positive] |}
       ∧ h' !! 2%positive = Some zero_Builder)
  ∧ (∃ h' : Heap,
       @Builder.Config Builder.core 1%positive
         [@bundle Builder.core fmt.verbatim [CHost "a"; CDelete];
          @bundle Builder.core fmt.verbatim [CHost "b"]]
         {[1%positive := zero_Builder; 2%positive := zero_Builder]}
         = Some (1%positive, h')
       ∧ h' !! 1%positive =
           Some {| method := "DELETE"; host := "b"; path := ""; params := [];
                   headers := ∅; body := None; validators := [];
                   handlers := [] |}).
Proof.
  assert (Hb : ({[1%positive := zero_Builder; 2%positive := zero_Builder]}
                  : Heap) !! 1%positive = Some zero_Builder) by reflexivity.
  split; [exact Hb |].
  destruct (@chain_mutates_in_place fmt.verbatim
              [CPut; CHost "api.example.com"; CPathf "/x" []; CParamInt "n" 7;
               CAccept "text/html"; CAccept "text/plain"; CBearer "t";
               CBodyJSON (VInt 1); CCheckStatus [200]; CToString 5%positive]
              [[CHost "a"; CDelete]; [CHost "b"]]
              1%positive _ zero_Builder Hb)
    as [(h1 & Hrun1 & Hat1 & _ & Hother1) (h2 & Hrun2 & Hat2 & _)].
  split.
  - exists h1. split; [exact Hrun1 |]. split.
    + refine (eq_trans Hat1 _). vm_compute. reflexivity.
    + refine (eq_trans (Hother1 2%positive _) _); [discriminate | reflexivity].
  - exists h2. split; [exact Hrun2 | exact Hat2].
Defined.

Lemma body_setters_set_content_type_witness :
  let b := set_header "content-type" "text/plain" zero_Builder in
  ({[2%positive := b]} : Heap) !! 2%positive = Some b
  ∧ (∃ b' : Builder,
       @Builder.BodyJSON Builder.core 2%positive (VInt 1) {[2%positive := b]} =
         Some (2%positive, <[2%positive := b']> {[2%positive := b]})
       ∧ body b' = Some (BodyJSON (VInt 1))
       ∧ header_values "Content-Type" (headers b') = ["application/json"]).
Proof.
  intros b.
  assert (Hb : ({[2%positive := b]} : Heap) !! 2%positive = Some b)
    by reflexivity.
  split; [exact Hb |].
  exact (proj1 (body_setters_set_content_type 2%positive _ b (VInt 1) ∅ Hb)).
Defined.

Lemma overwrite_setters_last_wins_witness :
  ({[1%positive := zero_Builder]} : Heap) !! 1%positive = Some zero_Builder
  ∧ ∃ b' : Builder,
      (rb' ← @Builder.BasicAuth Builder.core 1%positive "u" "p";
       @Builder.Bearer Builder.core rb' "tok") {[1%positive := zero_Builder]} =
        Some (1%positive, <[1%positive := b']> {[1%positive := zero_Builder]})
      ∧ header_values "Authorization" (headers b') = ["Bearer tok"].
Proof.
  assert (Hb : ({[1%positive := zero_Builder]} : Heap) !! 1%positive
               = Some zero_Builder) by reflexivity.
  split; [exact Hb |].
  exact (proj1 (proj2 (proj2 (proj2
    (overwrite_setters_last_wins 1%positive _ zero_Builder
       "a" "b" "u" "p" "u" "p" "t" "tok" Hb))))).
Defined.

Lemma ToHeaders_sets_HEAD_and_appends_capture_witness :
  ({[1%positive := set_method "GET" zero_Builder]} : Heap) !! 1%positive
    = Some (set_method "GET" zero_Builder)
  ∧ ∃ b' : Builder,
      @Builder.ToHeaders Builder.core 1%positive 9%positive
        {[1%positive := set_method "GET" zero_Builder]} =
        Some (1%positive,
              <[1%positive := b']> {[1%positive := set_method "GET" zero_Builder]})
      ∧ method b' = "HEAD"
      ∧ handlers b' = [ChainHandlers [ToHeaders 9%positive; consumeBody]].
Proof.
  assert (Hb : ({[1%positive := set_method "GET" zero_Builder]} : Heap)
                 !! 1%positive = Some (set_method "GET" zero_Builder))
    by reflexivity.
  split; [exact Hb |].
  destruct (ToHeaders_sets_HEAD_and_appends_capture 1%positive 9%positive _ _ Hb)
    as (b' & Hrun & Hm & Hh & _).
  exists b'. split; [exact Hrun |]. split; [exact Hm | exact Hh].
Defined.

(** The scenario of the spec: headers [X: 1] and body "ignored" leave the
    map with [X: 1] and nothing of the body unread. *)
Example header_capture_scenario :
  run_handler (λ _ _ _, None)
    (ChainHandlers [ToHeaders 9%positive; consumeBody])
    {| http.StatusCode := 200; http.Header := {["X" := ["1"]]};
       http.Body := "ignored" |}
    {[9%positive := ∅]} =
  Some (None,
        ({| http.StatusCode := 200; http.Header := {["X" := ["1"]]};
            http.Body := "" |},
         {[9%positive := {["X" := ["1"]]}]})).
Proof.
  rewrite (run_header_capture _ 9%positive _ _ ∅) by reflexivity.
  rewrite (right_id_L ∅ (∪)), insert_singleton_eq. reflexivity.
Qed.

Example BasicAuth_u_p :
  ∃ b' : Builder,
    @Builder.BasicAuth Builder.core 1%positive "u" "p" {[1%positive := zero_Builder]}
      = Some (1%positive, {[1%positive := b']})
    ∧ header_values "Authorization" (headers b') = ["Basic dTpw"].
Proof.
  exists (set_header "Authorization" "Basic dTpw" zero_Builder).
  split; [| reflexivity].
  cbn. unfold update. rewrite lookup_singleton_eq, insert_singleton_eq.
  reflexivity.
Qed.

(* ===================================================================== *)
(** ** Further properties: package minitrue *)
(* ===================================================================== *)

Section MinitrueAlgebra.

Import minitrue.
Context {T : Type} `{Comparable T}.

(** [First] compares equal to the zero value only when both arguments do:
    an argument that is [!= zero] is never lost.  The comparison is Go's
    [==], so this covers [float64] with its two zeros. *)
Theorem First_zero_iff (a b : T) :
  equal (First a b) zero = true ↔ equal a zero = true ∧ equal b zero = true.
Proof.
  destruct (equal a zero) eqn:Ha.
  - rewrite (First_zero a b Ha). tauto.
  - rewrite (First_nonzero a b Ha), Ha. split; [discriminate | tauto].
Qed.

(** The two orders of the arguments return the same value exactly when
    the arguments are the same value or exactly one of them is [== zero]. *)
Theorem First_comm_iff (a b : T) :
  First a b = First b a ↔ a = b ∨ equal a zero ≠ equal b zero.
Proof.
  destruct (equal a zero) eqn:Ha; destruct (equal b zero) eqn:Hb.
  - rewrite (First_zero a b Ha), (First_zero b a Hb).
    split; [auto | intros [Hab | Hne]; congruence].
  - rewrite (First_zero a b Ha), (First_nonzero b a Hb).
    split; [right; discriminate | reflexivity].
  - rewrite (First_nonzero a b Ha), (First_zero b a Hb).
    split; [right; discriminate | reflexivity].
  - rewrite (First_nonzero a b Ha), (First_nonzero b a Hb).
    split; [auto | intros [Hab | Hne]; congruence].
Qed.

(** Repeating an argument returns the same value again: [First(a, a)] is
    [a], and coalescing [First(a, b)] once more with [b], or [a] once more
    with [First(a, b)], returns what [First(a, b)] returned.  Putting [a]
    behind [First(a, b)] does so at the types whose [==] is identity. *)
Theorem First_left_regular (a b : T) :
  First a a = a
  ∧ First (First a b) b = First a b
  ∧ First a (First a b) = First a b
  ∧ (Identity T -> First (First a b) a = First a b).
Proof.
  destruct (equal a zero) eqn:Ha.
  - rewrite !(First_zero a _ Ha).
    split; [reflexivity |]. split.
    { destruct (equal b zero) eqn:Hb;
        [apply First_zero, Hb | apply First_nonzero, Hb]. }
    split; [reflexivity |]. intros Hid.
    destruct (equal b zero) eqn:Hb.
    + rewrite (First_zero b _ Hb).
      apply Hid in Ha. apply Hid in Hb. congruence.
    + apply First_nonzero, Hb.
  - rewrite !(First_nonzero a _ Ha). auto.
Qed.

Lemma First_foldr_head (l : list T) :
  foldr First zero l =
  default zero (head (filter (λ x, equal x zero = false) l)).
Proof.
  induction l as [| x l IH]; [reflexivity |].
  cbn [foldr]. destruct (equal x zero) eqn:Hx.
  - rewrite (First_zero x _ Hx), IH, filter_cons_False by congruence.
    reflexivity.
  - rewrite (First_nonzero x _ Hx), filter_cons_True by exact Hx.
    reflexivity.
Qed.

Lemma First_foldl_head (l : list T) :
  ∀ acc : T,
    foldl First acc l =
    if equal acc zero
    then default (default acc (last l))
           (head (filter (λ x, equal x zero = false) l))
    else acc.
Proof.
  induction l as [| x l IH]; intros acc; cbn [foldl].
  - destruct (equal acc zero); reflexivity.
  - rewrite IH. destruct (equal acc zero) eqn:Ha.
    + rewrite (First_zero acc x Ha). destruct (equal x zero) eqn:Hx.
      * rewrite filter_cons_False by congruence. rewrite last_cons.
        destruct (last l); reflexivity.
      * rewrite filter_cons_True by exact Hx. reflexivity.
    + rewrite (First_nonzero acc x Ha), Ha. reflexivity.
Qed.

(** Coalescing a whole list from the zero value.  Nested to the right,
    [First(x1, First(x2, ...))] returns the first element that is
    [!= zero], and the zero value when there is none.  Nested to the left,
    [First(First(x1, x2), ...)] returns that same first element, and the
    last element when there is none; the two agree at the types whose
    [==] is identity. *)
Theorem First_coalesce (l : list T) :
  foldr First zero l =
    default zero (head (filter (λ x, equal x zero = false) l))
  ∧ foldl First zero l =
    default (default zero (last l))
      (head (filter (λ x, equal x zero = false) l))
  ∧ (Identity T -> foldl First zero l = foldr First zero l).
Proof.
  split; [apply First_foldr_head |]. split.
  - rewrite First_foldl_head, zero_equal_zero. reflexivity.
  - intros Hid. rewrite First_foldl_head, zero_equal_zero, First_foldr_head.
    destruct (head (filter (λ x, equal x zero = false) l)) as [y |] eqn:Hhead;
      [reflexivity |].
    cbn [default]. destruct (last l) as [y |] eqn:Hlast; [| reflexivity].
    cbn [default].
    destruct (equal y zero) eqn:Hy; [apply Hid, Hy | exfalso].
    apply last_Some in Hlast as [l' ->].
    rewrite filter_app, filter_cons_True in Hhead by exact Hy.
    destruct (filter (λ x, equal x zero = false) l'); discriminate Hhead.
Qed.

End MinitrueAlgebra.

Section MinitrueMaps.

Import minitrue.
Context {T U : Type} `{Comparable T} `{Comparable U}.

(** A conversion that sends to the zero value exactly the arguments that
    are [== zero] can be applied before or after coalescing. *)
Theorem First_map (f : T -> U) (a b : T) :
  (∀ x : T, equal (f x) zero = equal x zero) ->
  f (First a b) = First (f a) (f b).
Proof.
  intros Hf. destruct (equal a zero) eqn:Ha.
  - rewrite (First_zero a b Ha), (First_zero (f a)); [reflexivity |].
    rewrite Hf. exact Ha.
  - rewrite (First_nonzero a b Ha), (First_nonzero (f a)); [reflexivity |].
    rewrite Hf. exact Ha.
Qed.

(** [Cond] chooses after the fact: a function applied to the choice is the
    choice between the results, and negating the condition swaps the
    branches. *)
Theorem Cond_map_negb (f : T -> U) (val : bool) (a b : T) :
  f (Cond val a b) = Cond val (f a) (f b)
  ∧ Cond (negb val) a b = Cond val b a.
Proof. destruct val; split; reflexivity. Qed.

End MinitrueMaps.



(* ===================================================================== *)
(** ** Further properties: what chains inherit from the primitives *)
(* ===================================================================== *)

Section Inherited.

Context `{Builder.Primitives} `{fmt.Formatter}.

Lemma bind_Some {A B : Type} (m : Go A) (k : A -> Go B) (h : Heap)
    (r : B) (h'' : Heap) :
  (x ← m; k x) h = Some (r, h'') ->
  ∃ (a : A) (h' : Heap), m h = Some (a, h') ∧ k a h' = Some (r, h'').
Proof.
  rewrite bind_run. destruct (m h) as [[a h'] |]; [| discriminate].
  intros Hk. exists a, h'. auto.
Qed.

Lemma keeps_bind (I : loc -> Heap -> Prop) (m k : loc -> Go loc) :
  keeps I m -> keeps I k -> keeps I (λ rb, rb' ← m rb; k rb').
Proof.
  intros Hm Hk rb h rb' h' HI Hrun.
  apply bind_Some in Hrun as (a & h1 & H1 & H2).
  exact (Hk _ _ _ _ (Hm _ _ _ _ HI H1) H2).
Qed.

Lemma invoke_keeps (I : loc -> Heap -> Prop) :
  all_primitives (keeps I) -> ∀ c : Call, keeps I (invoke c).
Proof.
  intros (HMethod & HHost & HPath & HParam & HHeader & HBody & HVal & HHandle) c.
  destruct c; cbn [invoke];
    first [ apply HMethod | apply HHost | apply HPath | apply HParam
          | apply HHeader | apply HBody | apply HVal | apply HHandle
          | apply keeps_bind;
            first [ apply HMethod | apply HHeader | apply HBody | apply HHandle ] ].
Qed.

Lemma chain_keeps_all (I : loc -> Heap -> Prop) :
  all_primitives (keeps I) -> ∀ cs : list Call, keeps I (chain cs).
Proof.
  intros HP cs. induction cs as [| c cs IH]; intros rb h rb' h' HI Hrun.
  - cbn in Hrun. injection Hrun as <- <-. exact HI.
  - cbn [chain] in Hrun. apply bind_Some in Hrun as (a & h1 & H1 & H2).
    exact (IH _ _ _ _ (invoke_keeps I HP c _ _ _ _ HI H1) H2).
Qed.

(** Whatever the primitive setters keep, every chain of setter calls keeps:
    the derived setters add no effect of their own. *)
Theorem chain_keeps (I : loc -> Heap -> Prop) (cs : list Call)
    (rb : loc) (h : Heap) (rb' : loc) (h' : Heap) :
  all_primitives (keeps I) ->
  I rb h -> chain cs rb h = Some (rb', h') -> I rb' h'.
Proof. intros HP. exact (chain_keeps_all I HP cs rb h rb' h'). Qed.

(** If the primitive setters work in place, then a chain of any length
    returns the pointer it was started on, allocates nothing and touches
    no other descriptor. *)
Theorem chain_in_place (cs : list Call) (rb : loc) (h : Heap)
    (rb' : loc) (h' : Heap) :
  all_primitives in_place ->
  chain cs rb h = Some (rb', h') ->
  rb' = rb ∧ dom h' = dom h ∧ (∀ r : loc, r ≠ rb -> h' !! r = h !! r).
Proof.
  intros HP Hrun.
  pose (I := λ (r : loc) (g : Heap),
          r = rb ∧ dom g = dom h ∧ (∀ r0 : loc, r0 ≠ rb -> g !! r0 = h !! r0)).
  assert (HK : all_primitives (keeps I)).
  { destruct HP as (H1 & H2 & H3 & H4 & H5 & H6 & H7 & H8).
    assert (Hlift : ∀ m, in_place m -> keeps I m).
    { intros m Hm r g r' g' (-> & Hd & Ho) Hr.
      destruct (Hm _ _ _ _ Hr) as (-> & Hd' & Ho').
      split; [reflexivity |]. split; [congruence |].
      intros r0 Hr0. rewrite Ho' by exact Hr0. apply Ho, Hr0. }
    refine (conj _ (conj _ (conj _ (conj _ (conj _ (conj _ (conj _ _)))))));
      intros; apply Hlift; auto. }
  apply (chain_keeps_all I HK cs rb h rb' h'); [| exact Hrun].
  split; [reflexivity |]. split; [reflexivity |]. auto.
Qed.

Lemma nil_panics_bind (m k : loc -> Go loc) :
  nil_panics m -> nil_panics (λ rb, rb' ← m rb; k rb').
Proof.
  intros Hm rb h Hnil. rewrite bind_run, (Hm rb h Hnil). reflexivity.
Qed.

(** If the primitive setters panic on a pointer that holds no descriptor,
    so does every derived setter, and so does every chain that makes at
    least one call. *)
Theorem chain_nil_panics (c : Call) (cs : list Call) (rb : loc) (h : Heap) :
  all_primitives nil_panics ->
  h !! rb = None ->
  invoke c rb h = None ∧ chain (c :: cs) rb h = None.
Proof.
  intros (HMethod & HHost & HPath & HParam & HHeader & HBody & HVal & HHandle)
    Hnil.
  assert (Hc : invoke c rb h = None).
  { destruct c; cbn [invoke];
      first [ exact (HMethod _ rb h Hnil) | exact (HHost _ rb h Hnil)
            | exact (HPath _ rb h Hnil) | exact (HParam _ _ rb h Hnil)
            | exact (HHeader _ _ rb h Hnil) | exact (HBody _ rb h Hnil)
            | exact (HVal _ rb h Hnil) | exact (HHandle _ rb h Hnil)
            | exact (nil_panics_bind _ _ (HBody _) rb h Hnil)
            | exact (nil_panics_bind _ _ (HMethod _) rb h Hnil) ]. }
  split; [exact Hc |]. cbn [chain]. rewrite bind_run, Hc. reflexivity.
Qed.

(** [Configure] hands out a pointer that no descriptor was stored at
    before, provided [Config] returns its receiver. *)
Theorem Configure_fresh (cfgs : list requests.Config) (h : Heap)
    (rb : loc) (h' : Heap) :
  (∀ cfgs, keeps (λ r g, r = fresh (dom h)) (λ r, Builder.Config r cfgs)) ->
  Configure cfgs h = Some (rb, h') ->
  rb = fresh (dom h) ∧ h !! rb = None.
Proof.
  intros HC Hrun. unfold Configure in Hrun.
  apply bind_Some in Hrun as (r & h1 & Hnew & Hcfg).
  unfold new_Builder in Hnew. injection Hnew as <- <-.
  assert (Hrb : rb = fresh (dom h)) by exact (HC cfgs _ _ _ _ eq_refl Hcfg).
  split; [exact Hrb |]. subst rb. apply not_elem_of_dom, is_fresh.
Qed.

End Inherited.

(* ===================================================================== *)
(** ** Further properties: the values the setters compute *)
(* ===================================================================== *)

Section StringFacts.

Lemma length_string_of_list_ascii (l : list ascii) :
  String.length (string_of_list_ascii l) = List.length l.
Proof. induction l as [| c l IH]; [reflexivity | cbn; rewrite IH; reflexivity]. Qed.

Lemma length_list_ascii_of_string (s : string) :
  List.length (list_ascii_of_string s) = String.length s.
Proof. induction s as [| c s IH]; [reflexivity | cbn; rewrite IH; reflexivity]. Qed.

Lemma append_cons (c : ascii) (s1 s2 : string) :
  String c s1 +:+ s2 = String c (s1 +:+ s2).
Proof. reflexivity. Qed.

Lemma length_append (s1 s2 : string) :
  String.length (s1 +:+ s2) = (String.length s1 + String.length s2)%nat.
Proof. induction s1 as [| c s1 IH]; [reflexivity | rewrite !append_cons; simpl; congruence]. Qed.

Lemma append_assoc (s1 s2 s3 : string) :
  (s1 +:+ s2) +:+ s3 = s1 +:+ (s2 +:+ s3).
Proof. induction s1 as [| c s1 IH]; [reflexivity | rewrite !append_cons; simpl; congruence]. Qed.

Lemma list_ascii_of_append (s1 s2 : string) :
  list_ascii_of_string (s1 +:+ s2) =
  (list_ascii_of_string s1 ++ list_ascii_of_string s2)%list.
Proof. induction s1 as [| c s1 IH]; [reflexivity | rewrite !append_cons; simpl; congruence]. Qed.

End StringFacts.

Section Base64Shape.

Import base64.

Lemma encode_base64_char (i : Z) : base64_char (encode i) = true.
Proof.
  unfold encode. generalize (Z.to_nat i). intros n.
  do 64 (destruct n as [| n]; [reflexivity |]). reflexivity.
Qed.

Lemma Encode_base64_chars (src : list ascii) :
  Forall (λ c, base64_char c = true) (Encode src).
Proof.
  remember (List.length src) as n eqn:Hn.
  revert src Hn. induction (lt_wf n) as [n _ IH]. intros src Hn.
  destruct src as [| s0 [| s1 [| s2 rest]]].
  - constructor.
  - cbn [Encode]. repeat constructor; apply encode_base64_char.
  - cbn [Encode]. repeat constructor; apply encode_base64_char.
  - rewrite Encode_three. cbv zeta.
    repeat (constructor; [apply encode_base64_char |]).
    apply (IH (List.length rest)); [subst n; simpl; lia | reflexivity].
Qed.

Lemma EncodeToString_injective (s1 s2 : string) :
  EncodeToString s1 = EncodeToString s2 -> s1 = s2.
Proof.
  intros Heq. apply (f_equal DecodeString) in Heq.
  rewrite !DecodeString_EncodeToString in Heq. congruence.
Qed.

End Base64Shape.

(** The [Authorization] value [BasicAuth] computes is "Basic " followed by
    characters of the base64 alphabet and padding only, whatever bytes the
    credentials contain, and its length is fixed by their lengths. *)
Theorem BasicAuth_value_shape (P : Builder.Primitives) (rb : loc)
    (username password : string) :
  ∃ v : string,
    Builder.BasicAuth rb username password =
      Builder.Header rb "Authorization" ("Basic " +:+ v)
    ∧ String.length v =
        base64.EncodedLen (String.length username + 1 + String.length password)
    ∧ Forall (λ c, base64_char c = true) (list_ascii_of_string v).
Proof.
  exists (base64.EncodeToString (username +:+ ":" +:+ password)).
  split; [reflexivity |]. unfold base64.EncodeToString. split.
  - rewrite length_string_of_list_ascii, length_Encode,
      length_list_ascii_of_string, !length_append.
    f_equal. cbn [String.length]. lia.
  - rewrite list_ascii_of_string_of_list_ascii. apply Encode_base64_chars.
Qed.

(** Two pairs of credentials make the same [BasicAuth] call exactly when
    they agree once joined by the colon: the call depends on nothing else,
    and different joined credentials are never confused. *)
Theorem BasicAuth_same_iff (u1 p1 u2 p2 : string) :
  (∀ (P : Builder.Primitives) (rb : loc),
     Builder.BasicAuth rb u1 p1 = Builder.BasicAuth rb u2 p2)
  ↔ u1 +:+ ":" +:+ p1 = u2 +:+ ":" +:+ p2.
Proof.
  split.
  - intros Hsame.
    pose proof (f_equal (λ m : Go loc, m {[1%positive := zero_Builder]})
                  (Hsame Builder.core 1%positive)) as Hrun.
    cbn beta in Hrun. unfold Builder.BasicAuth in Hrun.
    cbn [Builder.Header Builder.core] in Hrun.
    rewrite !(update_live _ _ _ zero_Builder) in Hrun
      by apply lookup_singleton_eq.
    apply (f_equal (λ o : option (loc * Heap),
                      match o with
                      | Some (_, h) =>
                          b ← h !! 1%positive; headers b !! "authorization"
                      | None => None
                      end)) in Hrun.
    cbn beta iota in Hrun. rewrite !lookup_insert_eq in Hrun.
    cbn [mbind option_bind set_header headers] in Hrun.
    unfold put_header in Hrun.
    change (single_value "Authorization") with true in Hrun.
    change (lower "Authorization") with "authorization" in Hrun.
    cbn iota in Hrun. rewrite !lookup_insert_eq in Hrun.
    injection Hrun as Hv. apply String.app_inj in Hv.
    apply EncodeToString_injective. exact Hv.
  - intros Heq P rb. unfold Builder.BasicAuth. cbv zeta.
    rewrite Heq. reflexivity.
Qed.

(** A colon is not escaped: moving text across the first colon between
    the user name and the password gives the same header. *)
Theorem BasicAuth_colon_shift (P : Builder.Primitives) (rb : loc)
    (username middle password : string) :
  Builder.BasicAuth rb (username +:+ ":" +:+ middle) password =
  Builder.BasicAuth rb username (middle +:+ ":" +:+ password).
Proof.
  unfold Builder.BasicAuth. cbv zeta.
  rewrite !append_assoc. reflexivity.
Qed.

Lemma append_nil_r (s : string) : s +:+ "" = s.
Proof. induction s as [| c s IH]; [reflexivity | rewrite append_cons; congruence]. Qed.

Section ItoaShape.

Import strconv.

Lemma decimal_digit_digit (d : Z) : 0 <= d < 10 -> decimal_digit (digit d) = true.
Proof.
  intros Hd.
  assert (Hc : d = 0 ∨ d = 1 ∨ d = 2 ∨ d = 3 ∨ d = 4 ∨ d = 5 ∨ d = 6
               ∨ d = 7 ∨ d = 8 ∨ d = 9) by lia.
  repeat (destruct Hc as [-> | Hc]; [reflexivity |]). subst d. reflexivity.
Qed.

Lemma digit_not_zero (d : Z) : 0 < d < 10 -> digit d ≠ "0"%char.
Proof.
  intros Hd.
  assert (Hc : d = 1 ∨ d = 2 ∨ d = 3 ∨ d = 4 ∨ d = 5 ∨ d = 6
               ∨ d = 7 ∨ d = 8 ∨ d = 9) by lia.
  repeat (destruct Hc as [-> | Hc]; [discriminate |]). subst d. discriminate.
Qed.

(** What the digit loop writes in front of [a]: between one and [k]
    decimal digits for a magnitude below [10 ^ k], the first of them not
    a zero unless the magnitude is zero. *)
Lemma formatBits_shape (n : nat) :
  ∀ (k : nat) (u : Z) (a : string),
    (1 <= k <= n)%nat -> 0 <= u < 10 ^ Z.of_nat k ->
    ∃ (c : ascii) (r : string),
      formatBits n u a = String c r +:+ a
      ∧ Forall (λ x, decimal_digit x = true) (list_ascii_of_string (String c r))
      ∧ (String.length (String c r) <= k)%nat
      ∧ (0 < u -> c ≠ "0"%char).
Proof.
  induction n as [| n IH]; intros k u a Hk Hu; [lia |].
  cbn [formatBits]. destruct (Z.ltb_spec u 10) as [Hlt | Hge].
  - exists (digit u), "". split; [reflexivity |]. split.
    + repeat constructor. apply decimal_digit_digit. lia.
    + split; [cbn; lia |]. intros Hpos. apply digit_not_zero. lia.
  - assert (Hk2 : (2 <= k)%nat).
    { destruct k as [| [| k]]; [lia | | lia].
      change (10 ^ Z.of_nat 1) with 10 in Hu. lia. }
    assert (Hq : 0 <= u / 10 < 10 ^ Z.of_nat (k - 1)).
    { replace (Z.of_nat k) with (Z.succ (Z.of_nat (k - 1))) in Hu by lia.
      rewrite Z.pow_succ_r in Hu by lia.
      split; [apply Z.div_pos; lia | apply Z.div_lt_upper_bound; lia]. }
    destruct (IH (k - 1)%nat (u / 10) (String (digit (u mod 10)) a)
                ltac:(lia) Hq) as (c & r & Heq & Hdig & Hlen & Hhead).
    exists c, (r +:+ String (digit (u mod 10)) "").
    split.
    { rewrite Heq, !append_cons, append_assoc. reflexivity. }
    split.
    { change (String c (r +:+ String (digit (u mod 10)) ""))
        with (String c r +:+ String (digit (u mod 10)) "").
      rewrite list_ascii_of_append. apply Forall_app. split; [exact Hdig |].
      repeat constructor. apply decimal_digit_digit.
      apply Z.mod_pos_bound. lia. }
    split.
    { cbn [String.length] in *. rewrite length_append. cbn [String.length]. lia. }
    intros _. apply Hhead.
    apply Z.div_str_pos. lia.
Qed.

End ItoaShape.

(** The value [ParamInt] passes on for a 64-bit integer is an optional
    minus sign followed by one to nineteen decimal digits, without a
    leading zero unless the integer is zero: nothing in it needs
    escaping. *)
Theorem ParamInt_value_shape (P : Builder.Primitives) (rb : loc)
    (key : string) (value : Z) :
  strconv.is_int value ->
  ∃ (c : ascii) (r : string),
    Builder.ParamInt rb key value =
      Builder.Param rb key ((if value <? 0 then "-" else "") +:+ String c r)
    ∧ Forall (λ x, decimal_digit x = true) (list_ascii_of_string (String c r))
    ∧ (String.length (String c r) <= 19)%nat
    ∧ (value ≠ 0 -> c ≠ "0"%char).
Proof.
  unfold strconv.is_int. intros Hv.
  assert (Hbig : 2 ^ 63 < 10 ^ Z.of_nat 19) by reflexivity.
  unfold Builder.ParamInt, strconv.Itoa.
  destruct (Z.ltb_spec value 0) as [Hneg | Hpos].
  - destruct (formatBits_shape 20 19 (- value) "" ltac:(lia) ltac:(lia))
      as (c & r & Heq & Hdig & Hlen & Hhead).
    exists c, r. rewrite Heq, append_nil_r. split; [reflexivity |].
    split; [exact Hdig |]. split; [exact Hlen |]. intros _. apply Hhead. lia.
  - destruct (formatBits_shape 20 19 value "" ltac:(lia) ltac:(lia))
      as (c & r & Heq & Hdig & Hlen & Hhead).
    exists c, r. rewrite Heq, append_nil_r. split; [reflexivity |].
    split; [exact Hdig |]. split; [exact Hlen |]. intros Hnz. apply Hhead. lia.
Qed.

(** Different integers are never passed on as the same parameter value:
    two [ParamInt] calls agree exactly when their integers do. *)
Theorem ParamInt_same_iff (key : string) (v1 v2 : Z) :
  strconv.is_int v1 -> strconv.is_int v2 ->
  (∀ (P : Builder.Primitives) (rb : loc),
     Builder.ParamInt rb key v1 = Builder.ParamInt rb key v2)
  ↔ v1 = v2.
Proof.
  intros H1 H2. split; [| intros ->; reflexivity].
  intros Hsame.
  pose proof (f_equal (λ m : Go loc, m {[1%positive := zero_Builder]})
                (Hsame Builder.core 1%positive)) as Hrun.
  cbn beta in Hrun. unfold Builder.ParamInt in Hrun.
  cbn [Builder.Param Builder.core] in Hrun.
  rewrite !(update_live _ _ _ zero_Builder) in Hrun
    by apply lookup_singleton_eq.
  apply (f_equal (λ o : option (loc * Heap),
                    match o with
                    | Some (_, h) => params <$> h !! 1%positive
                    | None => None
                    end)) in Hrun.
  cbn beta iota in Hrun. rewrite !lookup_insert_eq in Hrun.
  cbn in Hrun. injection Hrun as Hs.
  apply (f_equal strconv.parse_decimal) in Hs.
  rewrite !parse_decimal_Itoa in Hs by assumption. congruence.
Qed.

(* ===================================================================== *)
(** ** The primitive setters of the package have the inherited properties *)
(* ===================================================================== *)

Lemma core_all (Q : (loc -> Go loc) -> Prop) :
  (∀ f : Builder -> Builder, Q (update f)) -> @all_primitives Builder.core Q.
Proof.
  intros HQ.
  refine (conj _ (conj _ (conj _ (conj _ (conj _ (conj _ (conj _ _)))))));
    intros; apply HQ.
Qed.

Lemma update_in_place (f : Builder -> Builder) : in_place (update f).
Proof.
  intros rb h rb' h' Hrun. unfold update in Hrun.
  destruct (h !! rb) as [b |] eqn:Hb; [| discriminate].
  injection Hrun as <- <-.
  split; [reflexivity |]. split.
  - apply dom_insert_lookup_L. rewrite Hb. eauto.
  - intros r Hr. apply lookup_insert_ne. congruence.
Qed.

Lemma update_keeps_live (f : Builder -> Builder) :
  keeps (λ rb h, is_Some (h !! rb)) (update f).
Proof.
  intros rb h rb' h' _ Hrun. unfold update in Hrun.
  destruct (h !! rb) as [b |]; [| discriminate].
  injection Hrun as <- <-. rewrite lookup_insert_eq. eauto.
Qed.

Lemma Config_core_returns_receiver (cfgs : list requests.Config) (rb : loc)
    (h : Heap) (rb' : loc) (h' : Heap) :
  @Builder.Config Builder.core rb cfgs h = Some (rb', h') -> rb' = rb.
Proof.
  cbn [Builder.Config Builder.core]. rewrite bind_run.
  destruct (Builder.apply_configs cfgs rb h) as [[[] h1] |]; [| discriminate].
  intros Hret. injection Hret as <- _. reflexivity.
Qed.

Lemma First_map_witness :
  (∀ s : string,
     minitrue.equal (Z.of_nat (String.length s)) minitrue.zero =
     minitrue.equal s minitrue.zero)
  ∧ Z.of_nat (String.length (minitrue.First "" "abc")) =
    minitrue.First (Z.of_nat (String.length "")) (Z.of_nat (String.length "abc")).
Proof.
  assert (Hf : ∀ s : string,
             minitrue.equal (Z.of_nat (String.length s)) minitrue.zero =
             minitrue.equal s minitrue.zero).
  { intros [| c s]; reflexivity. }
  split; [exact Hf |].
  exact (First_map (λ s, Z.of_nat (String.length s)) "" "abc" Hf).
Defined.

Lemma First_left_regular_witness :
  minitrue.First minitrue.NaN minitrue.NaN = minitrue.NaN
  ∧ minitrue.First (minitrue.First 0 0) 0 = minitrue.First 0 0.
Proof.
  split.
  - exact (proj1 (First_left_regular minitrue.NaN minitrue.NaN)).
  - exact (proj2 (proj2 (proj2 (First_left_regular 0 0)))
             minitrue.int_identity).
Defined.

Lemma First_coalesce_witness :
  foldl minitrue.First minitrue.zero [minitrue.zero; minitrue.negative_zero] =
    minitrue.negative_zero
  ∧ foldr minitrue.First minitrue.zero [minitrue.zero; minitrue.negative_zero] =
    minitrue.zero
  ∧ foldl minitrue.First minitrue.zero [0; 7; 9] =
    foldr minitrue.First minitrue.zero [0; 7; 9].
Proof.
  split; [| split].
  - exact (proj1 (proj2
             (First_coalesce [minitrue.zero; minitrue.negative_zero]))).
  - exact (proj1 (First_coalesce [minitrue.zero; minitrue.negative_zero])).
  - exact (proj2 (proj2 (First_coalesce [0; 7; 9])) minitrue.int_identity).
Defined.

Lemma chain_keeps_witness :
  is_Some (({[1%positive := zero_Builder]} : Heap) !! 1%positive)
  ∧ is_Some
      ((<[1%positive := @documented_all fmt.verbatim
                          [CPatch; CBodyForm ∅; CCheckStatus [200]]
                          zero_Builder]>
          ({[1%positive := zero_Builder]} : Heap)) !! 1%positive).
Proof.
  assert (HI : is_Some (({[1%positive := zero_Builder]} : Heap) !! 1%positive)).
  { rewrite lookup_singleton_eq. eauto. }
  split; [exact HI |].
  exact (@chain_keeps Builder.core fmt.verbatim
           (λ rb h, is_Some (h !! rb))
           [CPatch; CBodyForm ∅; CCheckStatus [200]]
           1%positive {[1%positive := zero_Builder]} 1%positive _
           (core_all _ update_keeps_live) HI
           (@chain_documented fmt.verbatim _ 1%positive _ zero_Builder
              (lookup_singleton_eq _ _))).
Defined.

Lemma chain_in_place_witness :
  dom (<[1%positive := @documented_all fmt.verbatim
                          [CDelete; CToHeaders 7%positive] zero_Builder]>
         ({[1%positive := zero_Builder; 2%positive := zero_Builder]} : Heap))
  = dom ({[1%positive := zero_Builder; 2%positive := zero_Builder]} : Heap).
Proof.
  exact (proj1 (proj2
    (@chain_in_place Builder.core fmt.verbatim
       [CDelete; CToHeaders 7%positive] 1%positive
       {[1%positive := zero_Builder; 2%positive := zero_Builder]}
       1%positive _
       (core_all _ update_in_place)
       (@chain_documented fmt.verbatim _ 1%positive _ zero_Builder
          (lookup_insert_eq _ _ _))))).
Defined.

Lemma chain_nil_panics_witness :
  (∅ : Heap) !! 3%positive = None
  ∧ @chain Builder.core fmt.verbatim [CBodyJSON VNil; CPut] 3%positive ∅ = None.
Proof.
  assert (Hnil : (∅ : Heap) !! 3%positive = None) by apply lookup_empty.
  split; [exact Hnil |].
  exact (proj2 (@chain_nil_panics Builder.core fmt.verbatim
                  (CBodyJSON VNil) [CPut] 3%positive ∅
                  (core_all _ update_nil) Hnil)).
Defined.

Lemma Configure_fresh_witness :
  @Configure Builder.core
    [@bundle Builder.core fmt.verbatim [CDelete; CHost "h"]]
    {[1%positive := zero_Builder; 2%positive := zero_Builder]} =
    Some (3%positive,
          <[3%positive := @documented_all fmt.verbatim [CDelete; CHost "h"]
                            zero_Builder]>
            {[1%positive := zero_Builder; 2%positive := zero_Builder]})
  ∧ 3%positive =
      fresh (dom ({[1%positive := zero_Builder; 2%positive := zero_Builder]}
                    : Heap))
  ∧ ({[1%positive := zero_Builder; 2%positive := zero_Builder]} : Heap)
      !! 3%positive = None
  ∧ ({[1%positive := zero_Builder; 2%positive := zero_Builder]} : Heap)
      !! 1%positive = Some zero_Builder
  ∧ ({[1%positive := zero_Builder; 2%positive := zero_Builder]} : Heap)
      !! 2%positive = Some zero_Builder.
Proof.
  assert (Hrun : @Configure Builder.core
                   [@bundle Builder.core fmt.verbatim [CDelete; CHost "h"]]
                   {[1%positive := zero_Builder; 2%positive := zero_Builder]} =
                 Some (3%positive,
                       <[3%positive := @documented_all fmt.verbatim
                                         [CDelete; CHost "h"] zero_Builder]>
                         {[1%positive := zero_Builder;
                           2%positive := zero_Builder]}))
    by (vm_compute; reflexivity).
  split; [exact Hrun |].
  destruct (@Configure_fresh Builder.core _ _ _ _
              (λ cfgs r g r' g' Hr Hc,
                 eq_trans (Config_core_returns_receiver cfgs r g r' g' Hc) Hr)
              Hrun) as [Hfresh Hnone].
  split; [exact Hfresh |]. split; [exact Hnone |].
  split; reflexivity.
Defined.

Lemma ParamInt_value_shape_witness :
  strconv.is_int (-120)
  ∧ ∃ (c : ascii) (r : string),
      @Builder.ParamInt Builder.core 1%positive "offset" (-120) =
        @Builder.Param Builder.core 1%positive "offset" ("-" +:+ String c r)
      ∧ Forall (λ x, decimal_digit x = true) (list_ascii_of_string (String c r))
      ∧ (String.length (String c r) <= 19)%nat
      ∧ (-120 ≠ 0 -> c ≠ "0"%char).
Proof.
  assert (Hv : strconv.is_int (-120)) by (unfold strconv.is_int; lia).
  split; [exact Hv |].
  exact (ParamInt_value_shape Builder.core 1%positive "offset" (-120) Hv).
Defined.

Lemma ParamInt_same_iff_witness :
  strconv.is_int 10 ∧ strconv.is_int 100
  ∧ ((∀ (P : Builder.Primitives) (rb : loc),
        Builder.ParamInt rb "n" 10 = Builder.ParamInt rb "n" 100)
     ↔ 10 = 100).
Proof.
  assert (H1 : strconv.is_int 10) by (unfold strconv.is_int; lia).
  assert (H2 : strconv.is_int 100) by (unfold strconv.is_int; lia).
  split; [exact H1 |]. split; [exact H2 |].
  exact (ParamInt_same_iff "n" 10 100 H1 H2).
Defined.
